(** * Haar cascade classifier sketch (Haar_Cascade_classifier.ipynb)

    A shallow embedding of the notebook's code cell: the integral image,
    the two-rectangle Haar feature, the weak classifier and its two
    trainers, the cascade stage and detector, and the sliding-window
    scanner.

    Modelling choices.
    - An image is a list of rows of integers ([grid]); numpy arrays are
      rectangular, which [rectangular] states where a proof needs it.
      A zero-row array is given width 0.
    - Arithmetic is exact ([Z] and [Q]).  The model covers signed integer
      grids, as [np.array] builds from integer literals: numpy's object
      arrays of Python ints compute exactly, and its 64-bit arrays and
      the double-precision comparisons of the code agree with exact
      arithmetic as long as the sums stay below 2^53 (a 24x24 8-bit
      sample sums to at most 146880).  The equations on the integral
      image are between sums and differences, which commute with
      reduction modulo 2^64.  Unsigned arrays, on which the subtraction
      in [compute] wraps, and float grids are outside the model.
    - [np.linspace(-1, 1, num=10)] is the list of the ten rationals
      (2k-9)/9; its end points -1 and 1 are exact in floating point and
      the inner points lie strictly between consecutive integers, so
      every comparison with an integer feature value comes out the same.
    - Where a property depends on the order or the sign of a value
      that numpy computes, its theorem carries the bound under which
      the code's 64-bit sums do not wrap and its doubles are exact.
    - An accuracy is a quotient of two sample counts; distinct counts
      over the same total give distinct doubles, so comparing the exact
      quotients agrees with the code.
    - Python slices, [range] and [/] follow the language: slices clip,
      negative slice bounds count from the end, [range] with step 0 and
      division by 0 raise. *)

From Stdlib Require Import String ZArith QArith List Bool Lia.
From Stdlib Require Import Permutation Sorted.
Import ListNotations.

Open Scope Z_scope.

(** ** Python: exceptions, loops, slices, ranges *)

Module Py.

Inductive exn : Type :=
| ZeroDivisionError
| ValueError.

Inductive result (A : Type) : Type :=
| Ok (a : A)
| Raise (e : exn).

Arguments Ok {A} a.
Arguments Raise {A} e.

Definition bind {A B : Type} (m : result A) (k : A -> result B) : result B :=
  match m with
  | Ok a => k a
  | Raise e => Raise e
  end.

(** [for x in xs: body], threading the variables the body assigns. *)
Fixpoint for_each {A S : Type} (xs : list A) (s : S)
    (body : S -> A -> result S) : result S :=
  match xs with
  | [] => Ok s
  | x :: xs' => bind (body s x) (fun s' => for_each xs' s' body)
  end.

(** A slice bound [i] on a sequence of length [n]: a negative bound
    counts from the end, and the result is clipped to [0, n]. *)
Definition slice_bound (i : Z) (n : nat) : nat :=
  let i' := if i <? 0 then i + Z.of_nat n else i in
  Z.to_nat (Z.min i' (Z.of_nat n)).

(** [l[a:b]] *)
Definition slice {A : Type} (a b : Z) (l : list A) : list A :=
  let lo := slice_bound a (length l) in
  let hi := slice_bound b (length l) in
  firstn (hi - lo) (skipn lo l).

Definition range_len (start stop step : Z) : nat :=
  if 0 <? step
  then Z.to_nat ((stop - start + step - 1) / step)
  else Z.to_nat ((start - stop - step - 1) / (- step)).

(** [range(start, stop, step)] *)
Definition range (start stop step : Z) : result (list Z) :=
  if step =? 0 then Raise ValueError
  else Ok (map (fun k => start + step * Z.of_nat k)
               (seq 0 (range_len start stop step))).

(** [a / b] on two ints: true division. *)
Definition div (a b : Z) : result Q :=
  if b =? 0 then Raise ZeroDivisionError
  else if b <? 0 then Ok ((- a) # Z.to_pos (- b))
  else Ok (a # Z.to_pos b).

(** [a < b] on rationals, as a boolean. *)
Definition Qlt_bool (a b : Q) : bool := negb (Qle_bool b a).

End Py.

Import Py.

Notation "x <- m ;; k" := (Py.bind m (fun x => k))
  (at level 61, m at next level, right associativity).

(** ** numpy: integer grids *)

Definition grid : Type := list (list Z).

Definition sumZ (l : list Z) : Z := fold_left Z.add l 0.

Arguments sumZ : simpl never.

Module np.

(** [img.shape[0]] and [img.shape[1]] *)
Definition shape0 (img : grid) : Z := Z.of_nat (length img).
Definition shape1 (img : grid) : Z :=
  match img with
  | [] => 0
  | r :: _ => Z.of_nat (length r)
  end.

(** [img[ya:yb, xa:xb]] *)
Definition slice2 (ya yb xa xb : Z) (img : grid) : grid :=
  map (Py.slice xa xb) (Py.slice ya yb img).

(** [img.sum()] *)
Definition sum (img : grid) : Z := sumZ (map sumZ img).

Fixpoint cumsum_from (acc : Z) (l : list Z) : list Z :=
  match l with
  | [] => []
  | x :: xs => (acc + x) :: cumsum_from (acc + x) xs
  end.

(** The running sum of a row. *)
Definition cumsum (l : list Z) : list Z := cumsum_from 0 l.

Definition add_rows (a b : list Z) : list Z :=
  map (fun p => fst p + snd p) (combine a b).

Fixpoint cumsum_rows_from (acc : list Z) (rows : grid) : grid :=
  match rows with
  | [] => []
  | r :: rs => add_rows acc r :: cumsum_rows_from (add_rows acc r) rs
  end.

(** [img.cumsum(axis=0)]: running sums down each column. *)
Definition cumsum_axis0 (img : grid) : grid :=
  match img with
  | [] => []
  | r :: rs => r :: cumsum_rows_from r rs
  end.

(** [img.cumsum(axis=1)]: running sums along each row. *)
Definition cumsum_axis1 (img : grid) : grid := map cumsum img.

(** [np.linspace(-1, 1, num=10)] *)
Definition linspace_m1_1_10 : list Q :=
  map (fun k => (2 * Z.of_nat k - 9) # 9) (seq 0 10).

End np.

(** ** Step 1: the integral image *)

Definition integral_image (img : grid) : grid :=
  np.cumsum_axis1 (np.cumsum_axis0 img).

(** ** Step 2: Haar-like features *)

Module HaarFeature.

Record t : Type := Build
  { feature_type : string;
    position : Z * Z;
    width : Z;
    height : Z }.

Definition compute (self : t) (int_img : grid) : Z :=
  let '(x, y) := position self in
  let w := width self in
  let h := height self in
  if String.eqb (feature_type self) "two-rect" then
    let white := np.sum (np.slice2 y (y + h) x (x + w / 2) int_img) in
    let black := np.sum (np.slice2 y (y + h) (x + w / 2) (x + w) int_img) in
    white - black
  else 0.

End HaarFeature.

(** ** Step 3: the weak classifier *)

Module WeakClassifier.

Record t : Type := Build
  { feature : HaarFeature.t;
    threshold : Q;
    polarity : Z }.

Definition predict (self : t) (int_img : grid) : Z :=
  let feature_value := HaarFeature.compute (feature self) int_img in
  if Py.Qlt_bool (inject_Z (polarity self * feature_value))
                 (inject_Z (polarity self) * threshold self)
  then 1 else 0.

End WeakClassifier.

(** ** Step 4: training one weak classifier (simplified) *)

(** The state of the search loop: [(best_classifier, best_accuracy)];
    [None] is Python's [None]. *)
Definition best : Type := (option WeakClassifier.t * Q)%type.

(** [if accuracy > best_accuracy: ...] *)
Definition keep_better (st : best) (classifier : WeakClassifier.t)
    (accuracy : Q) : best :=
  if Py.Qlt_bool (snd st) accuracy then (Some classifier, accuracy) else st.

(** [correct], after the two counting loops of [train_classifier]. *)
Definition count_correct (classifier : WeakClassifier.t)
    (pos_imgs neg_imgs : list grid) : Z :=
  let correct := 0 in
  let correct :=
    fold_left (fun correct img =>
      if WeakClassifier.predict classifier (integral_image img) =? 1
      then correct + 1 else correct) pos_imgs correct in
  fold_left (fun correct img =>
    if WeakClassifier.predict classifier (integral_image img) =? 0
    then correct + 1 else correct) neg_imgs correct.

Definition train_classifier (pos_imgs neg_imgs : list grid)
    (feature : HaarFeature.t) : Py.result (option WeakClassifier.t) :=
  st <- Py.for_each np.linspace_m1_1_10 (None, 0%Q) (fun st threshold =>
          Py.for_each [1; -1] st (fun st polarity =>
            let classifier := WeakClassifier.Build feature threshold polarity in
            let correct := count_correct classifier pos_imgs neg_imgs in
            accuracy <- Py.div correct
                          (Z.of_nat (length pos_imgs)
                           + Z.of_nat (length neg_imgs)) ;;
            Py.Ok (keep_better st classifier accuracy))) ;;
  Py.Ok (fst st).

(** ** Step 4, full version *)

(** [np.ones(n) / (2 * n)]; dividing the empty array by 0 gives the
    empty array. *)
Definition uniform_weights (n : nat) : list Q :=
  repeat (1 # Pos.of_nat (2 * n)) n.

(** [predictions], after the two appending loops of [adaboost_train]. *)
Definition predictions_of (classifier : WeakClassifier.t)
    (pos_integral_images neg_integral_images : list grid) : list Z :=
  let predictions := [] in
  let predictions :=
    fold_left (fun predictions img =>
      predictions ++ [WeakClassifier.predict classifier img])
      pos_integral_images predictions in
  fold_left (fun predictions img =>
    predictions ++ [1 - WeakClassifier.predict classifier img])
    neg_integral_images predictions.

(** The body of [for feature in features]; [weights] is in scope and is
    neither read nor updated (the update is a comment in the source). *)
Definition adaboost_round (num_pos num_neg : nat)
    (pos_integral_images neg_integral_images : list grid)
    (st : list Q * list (option WeakClassifier.t)) (feature : HaarFeature.t)
    : Py.result (list Q * list (option WeakClassifier.t)) :=
  let '(weights, classifiers) := st in
  b <- Py.for_each np.linspace_m1_1_10 (None, 0%Q) (fun b threshold =>
         Py.for_each [1; -1] b (fun b polarity =>
           let classifier := WeakClassifier.Build feature threshold polarity in
           let predictions :=
             predictions_of classifier
               pos_integral_images neg_integral_images in
           accuracy <- Py.div (sumZ predictions)
                         (Z.of_nat num_pos + Z.of_nat num_neg) ;;
           Py.Ok (keep_better b classifier accuracy))) ;;
  Py.Ok (weights, classifiers ++ [fst b]).

(** The loop over the features, from a given weight vector. *)
Definition adaboost_rounds (weights : list Q) (features : list HaarFeature.t)
    (pos_integral_images neg_integral_images : list grid)
    : Py.result (list Q * list (option WeakClassifier.t)) :=
  let num_pos := length pos_integral_images in
  let num_neg := length neg_integral_images in
  Py.for_each features (weights, [])
    (adaboost_round num_pos num_neg pos_integral_images neg_integral_images).

Definition adaboost_train (features : list HaarFeature.t)
    (pos_integral_images neg_integral_images : list grid)
    : Py.result (list (option WeakClassifier.t)) :=
  let num_pos := length pos_integral_images in
  let num_neg := length neg_integral_images in
  let weights := uniform_weights num_pos ++ uniform_weights num_neg in
  st <- adaboost_rounds weights features
          pos_integral_images neg_integral_images ;;
  Py.Ok (snd st).

(** ** Step 5: a cascade of classifiers *)

Fixpoint detect_faces_loop (int_img : grid)
    (classifiers : list WeakClassifier.t) : bool :=
  match classifiers with
  | [] => true
  | classifier :: rest =>
      if WeakClassifier.predict classifier int_img =? 0 then false
      else detect_faces_loop int_img rest
  end.

Definition detect_faces (img : grid) (classifiers : list WeakClassifier.t)
    : bool :=
  let int_img := integral_image img in
  detect_faces_loop int_img classifiers.

(** ** Step 5, full version: stages, observed through a call probe

    A computation in [Probe] returns its value together with the weak
    classifiers whose [predict] it called, in call order. *)

Definition Probe (A : Type) : Type := (A * list WeakClassifier.t)%type.

Definition ret {A : Type} (a : A) : Probe A := (a, []).

Definition pbind {A B : Type} (m : Probe A) (k : A -> Probe B) : Probe B :=
  let '(a, calls) := m in
  let '(b, calls') := k a in
  (b, calls ++ calls').

Notation "x <~ m ;; k" := (pbind m (fun x => k))
  (at level 61, m at next level, right associativity).

(** One probed call of [clf.predict(integral_image)]. *)
Definition call_predict (clf : WeakClassifier.t) (integral_image : grid)
    : Probe Z :=
  (WeakClassifier.predict clf integral_image, [clf]).

Module CascadeStage.

Record t : Type := Build
  { classifiers : list WeakClassifier.t;
    threshold : Q }.

(** [sum(clf.predict(integral_image) for clf in self.classifiers)] *)
Fixpoint sum_predictions (total : Z) (clfs : list WeakClassifier.t)
    (integral_image : grid) : Probe Z :=
  match clfs with
  | [] => ret total
  | clf :: rest =>
      p <~ call_predict clf integral_image ;;
      sum_predictions (total + p) rest integral_image
  end.

Definition classify (self : t) (integral_image : grid) : Probe bool :=
  stage_sum <~ sum_predictions 0 (classifiers self) integral_image ;;
  ret (Qle_bool (threshold self) (inject_Z stage_sum)).

End CascadeStage.

Module HaarCascade.

Record t : Type := Build { stages : list CascadeStage.t }.

Fixpoint detect_loop (remaining : list CascadeStage.t) (integral_img : grid)
    : Probe bool :=
  match remaining with
  | [] => ret true
  | stage :: rest =>
      passed <~ CascadeStage.classify stage integral_img ;;
      if negb passed then ret false
      else detect_loop rest integral_img
  end.

Definition detect (self : t) (image : grid) : Probe bool :=
  let integral_img := integral_image image in
  detect_loop (stages self) integral_img.

End HaarCascade.

(** ** Step 6: the sliding window *)

Definition region : Type := (Z * Z * Z * Z)%type.

Definition default_window_size : Z * Z := (24, 24).
Definition default_step_size : Z := 4.

Definition sliding_window (image : grid) (cascade : HaarCascade.t)
    (window_size : Z * Z) (step_size : Z) : Py.result (list region) :=
  let detected_regions := [] in
  ys <- Py.range 0 (np.shape0 image - snd window_size) step_size ;;
  Py.for_each ys detected_regions (fun detected_regions y =>
    xs <- Py.range 0 (np.shape1 image - fst window_size) step_size ;;
    Py.for_each xs detected_regions (fun detected_regions x =>
      let window :=
        np.slice2 y (y + snd window_size) x (x + fst window_size) image in
      if fst (HaarCascade.detect cascade window)
      then Py.Ok (detected_regions
                  ++ [(x, y, fst window_size, snd window_size)])
      else Py.Ok detected_regions)).

(** ** Sample data *)

(** The 4x4 sample of the end-to-end scenario. *)
Definition sample : grid :=
  [[1; 1; 2; 2]; [1; 1; 2; 2]; [3; 3; 4; 4]; [3; 3; 4; 4]].

Definition full_box : HaarFeature.t :=
  HaarFeature.Build "two-rect" (0, 0) 4 4.

(** An [h] x [w] image of zeros. *)
Definition zeros (h w : nat) : grid := repeat (repeat 0 w) h.

(** The cascade with no stage. *)
Definition no_stages : HaarCascade.t := HaarCascade.Build [].

(** A box that starts inside the 4x4 sample and ends outside it. *)
Definition overhanging_box : HaarFeature.t :=
  HaarFeature.Build "two-rect" (2, 2) 4 4.

(** A training set on which the raw count and the class-balanced
    weights disagree: the integral images of one positive and three
    negative 1x2 images, seen through the feature [row_pair], whose
    value on them is 0, 0, 0 and -5. *)
Definition row_pair : HaarFeature.t := HaarFeature.Build "two-rect" (0, 0) 2 1.
Definition one_positive : list grid := map integral_image [[[0; 0]]].
Definition three_negatives : list grid :=
  map integral_image [[[0; 0]]; [[0; 0]]; [[0; 5]]].

(** A two-stage cascade whose first stage asks for two votes from one
    classifier, and so rejects every image. *)
Definition strict_stage : CascadeStage.t :=
  CascadeStage.Build [WeakClassifier.Build full_box (9 # 9) 1] 2.
Definition lenient_stage : CascadeStage.t :=
  CascadeStage.Build [WeakClassifier.Build full_box (-9 # 9) (-1)] 0.
Definition two_stages : HaarCascade.t :=
  HaarCascade.Build [strict_stage; lenient_stage].

(** ** The vocabulary of the specification *)

(** All rows of [img] have [w] cells. *)
Definition rectangular (w : nat) (img : grid) : Prop :=
  Forall (fun r => length r = w) img.

(** The cell in column [x] of row [y]; a cell outside the grid reads 0. *)
Definition px (g : grid) (x y : Z) : Z :=
  if (x <? 0) || (y <? 0) then 0
  else nth (Z.to_nat x) (nth (Z.to_nat y) g []) 0.

(** The sum of the first [b] cells of a row, and of the first [b] cells
    of the first [a] rows of a grid. *)
Definition row_prefix (r : list Z) (b : nat) : Z :=
  sumZ (map (fun j => nth j r 0) (seq 0 b)).

Definition prefix_sum (g : grid) (a b : nat) : Z :=
  sumZ (map (fun i => row_prefix (nth i g []) b) (seq 0 a)).

(** The integers of [[a, b)], in order. *)
Definition zrange (a b : Z) : list Z :=
  map (fun k => a + Z.of_nat k) (seq 0 (Z.to_nat (b - a))).

(** The brute-force sum of the cells of [[x0, x1) x [y0, y1)]. *)
Definition rect_sum (g : grid) (x0 y0 x1 y1 : Z) : Z :=
  sumZ (map (fun y => sumZ (map (fun x => px g x y) (zrange x0 x1)))
            (zrange y0 y1)).

(** The four-corner lookup in an integral image [I] for the rectangle
    [[x0, x1) x [y0, y1)]. *)
Definition four_corner (I : grid) (x0 y0 x1 y1 : Z) : Z :=
  px I (x1 - 1) (y1 - 1) - px I (x1 - 1) (y0 - 1)
  - px I (x0 - 1) (y1 - 1) + px I (x0 - 1) (y0 - 1).

(** The two-rectangle response as the specification words it: the pixel
    sum of the left half of the box minus that of the right half, each
    by a four-corner lookup in the integral image. *)
Definition spec_two_rect (f : HaarFeature.t) (I : grid) : Z :=
  let '(x, y) := HaarFeature.position f in
  let w := HaarFeature.width f in
  let h := HaarFeature.height f in
  four_corner I x y (x + w / 2) (y + h)
  - four_corner I (x + w / 2) y (x + w) (y + h).

(** The feature's rectangle is not contained in the grid. *)
Definition exceeds_extent (f : HaarFeature.t) (I : grid) : bool :=
  let '(x, y) := HaarFeature.position f in
  (x <? 0) || (y <? 0)
  || (np.shape1 I <? x + HaarFeature.width f)
  || (np.shape0 I <? y + HaarFeature.height f).

(** What the caller of [compute] observes.  No statement of [compute]
    can raise on an integer grid, so the call always returns. *)
Definition call_compute (f : HaarFeature.t) (int_img : grid) : Py.result Z :=
  Py.Ok (HaarFeature.compute f int_img).

(** The grid of candidates of both trainers, in enumeration order. *)
Definition candidates (feature : HaarFeature.t) : list WeakClassifier.t :=
  flat_map (fun threshold =>
    map (fun polarity => WeakClassifier.Build feature threshold polarity)
        [1; -1]) np.linspace_m1_1_10.

(** Training-set accuracy of a classifier on raw images, counted
    independently of the trainer: the number of positives it classifies
    1 plus the number of negatives it classifies 0, over the number of
    samples. *)
Definition accuracy (pos_imgs neg_imgs : list grid)
    (classifier : WeakClassifier.t) : Q :=
  (Z.of_nat (length (filter
     (fun img =>
        WeakClassifier.predict classifier (integral_image img) =? 1)
     pos_imgs))
   + Z.of_nat (length (filter
       (fun img =>
          WeakClassifier.predict classifier (integral_image img) =? 0)
       neg_imgs)))
  # Z.to_pos (Z.of_nat (length pos_imgs) + Z.of_nat (length neg_imgs)).

(** The accuracy that the search loop of [train_classifier] computes
    for a candidate: its own counter over the number of samples. *)
Definition loop_accuracy (pos_imgs neg_imgs : list grid)
    (classifier : WeakClassifier.t) : Q :=
  count_correct classifier pos_imgs neg_imgs
  # Z.to_pos (Z.of_nat (length pos_imgs) + Z.of_nat (length neg_imgs)).

(** The largest magnitude up to which every integer is a double. *)
Definition exact_double_bound : Z := 2 ^ 53.

(** The raw score of [adaboost_train]: correct classifications over the
    number of samples. *)
Definition raw_score (pos neg : list grid) (classifier : WeakClassifier.t)
    : Q :=
  sumZ (predictions_of classifier pos neg)
  # Z.to_pos (Z.of_nat (length pos) + Z.of_nat (length neg)).

(** The weighted score of the specification: the sum of the weights of
    the correctly classified samples. *)
Definition weighted_score (weights : list Q) (pos neg : list grid)
    (classifier : WeakClassifier.t) : Q :=
  fold_left Qplus
    (map (fun wp => fst wp * inject_Z (snd wp))%Q
         (combine weights (predictions_of classifier pos neg)))
    0%Q.

(** [c] is the first candidate of [cands] with the greatest [score]. *)
Definition first_best (score : WeakClassifier.t -> Q)
    (cands : list WeakClassifier.t) (c : WeakClassifier.t) : Prop :=
  exists before after,
    cands = before ++ c :: after
    /\ (forall c', In c' before -> (score c' < score c)%Q)
    /\ (forall c', In c' after -> (score c' <= score c)%Q).

(** The values of [range(0, stop, step)] for a positive step. *)
Definition steps_below (stop step : Z) : list Z :=
  map (fun k => 0 + step * Z.of_nat k)
      (seq 0 (Z.to_nat ((stop - 0 + step - 1) / step))).

(** The cascade accepts the window of the given size at [(x, y)]. *)
Definition accepts_window (cascade : HaarCascade.t) (image : grid)
    (window_size : Z * Z) (x y : Z) : bool :=
  fst (HaarCascade.detect cascade
         (np.slice2 y (y + snd window_size) x (x + fst window_size) image)).

(** A stage passes, or rejects, an integral image. *)
Definition passes (integral_img : grid) (stage : CascadeStage.t) : Prop :=
  fst (CascadeStage.classify stage integral_img) = true.

Definition rejects (integral_img : grid) (stage : CascadeStage.t) : Prop :=
  fst (CascadeStage.classify stage integral_img) = false.

(** The [predict] calls a run of stages makes when each is evaluated
    in full. *)
Definition calls_of (stages : list CascadeStage.t) : list WeakClassifier.t :=
  flat_map CascadeStage.classifiers stages.

(** Row-major order on regions: an earlier row, or the same row and an
    earlier column. *)
Definition row_major_before (r1 r2 : region) : Prop :=
  let '(x1, y1, _, _) := r1 in
  let '(x2, y2, _, _) := r2 in
  y1 < y2 \/ (y1 = y2 /\ x1 < x2).

(** All cells of a grid are non-negative. *)
Definition nonneg_grid (img : grid) : Prop :=
  Forall (Forall (fun v => 0 <= v)) img.

(** * Proofs *)

(** Comparisons of rationals built from integers. *)
Ltac q_compare := unfold Qlt, inject_Z, Qmult; cbn [Qnum Qden]; lia.

(** ** The model on small inputs *)

Example integral_image_sample :
  integral_image sample
  = [[1; 2; 4; 6]; [2; 4; 8; 12]; [5; 10; 18; 26]; [8; 16; 28; 40]].
Proof. reflexivity. Qed.

Example slice_clips : Py.slice 3 9 [10; 11; 12; 13; 14] = [13; 14].
Proof. reflexivity. Qed.

Example slice_from_the_end : Py.slice (-3) (-1) [10; 11; 12; 13; 14] = [12; 13].
Proof. reflexivity. Qed.

Example range_by_3 : Py.range 0 10 3 = Py.Ok [0; 3; 6; 9].
Proof. reflexivity. Qed.

Example range_downward : Py.range 0 (-5) (-2) = Py.Ok [0; -2; -4].
Proof. reflexivity. Qed.

Example range_step_0 : Py.range 0 10 0 = Py.Raise Py.ValueError.
Proof. reflexivity. Qed.

Example train_without_samples :
  train_classifier [] [] full_box = Py.Raise Py.ZeroDivisionError.
Proof. reflexivity. Qed.

Example row_pair_values :
  map (HaarFeature.compute row_pair) (one_positive ++ three_negatives)
  = [0; 0; 0; -5].
Proof. reflexivity. Qed.

(** The first stage rejects, and the probe has seen its classifier
    only. *)
Example first_stage_rejects :
  HaarCascade.detect two_stages sample
  = (false, [WeakClassifier.Build full_box (9 # 9) 1]).
Proof. reflexivity. Qed.

Example scan_30_by_40 :
  sliding_window (zeros 30 40) no_stages default_window_size default_step_size
  = Py.Ok [(0, 0, 24, 24); (4, 0, 24, 24); (8, 0, 24, 24); (12, 0, 24, 24);
           (0, 4, 24, 24); (4, 4, 24, 24); (8, 4, 24, 24); (12, 4, 24, 24)].
Proof. vm_compute. reflexivity. Qed.

(** ** Sums *)

Section Sums.

Lemma fold_add_shift (l : list Z) (a : Z) :
  fold_left Z.add l a = a + fold_left Z.add l 0.
Proof.
  revert a. induction l as [|x l IH]; intros a; simpl.
  - lia.
  - rewrite (IH (a + x)), (IH x). lia.
Qed.

Lemma sumZ_nil : sumZ [] = 0.
Proof. reflexivity. Qed.

Lemma sumZ_cons (x : Z) (l : list Z) : sumZ (x :: l) = x + sumZ l.
Proof. unfold sumZ. simpl. apply fold_add_shift. Qed.

Lemma sumZ_app (l1 l2 : list Z) : sumZ (l1 ++ l2) = sumZ l1 + sumZ l2.
Proof.
  induction l1 as [|x l1 IH]; simpl.
  - reflexivity.
  - rewrite !sumZ_cons, IH. lia.
Qed.

Lemma sumZ_map_ext {A : Type} (f g : A -> Z) (l : list A) :
  (forall a, In a l -> f a = g a) -> sumZ (map f l) = sumZ (map g l).
Proof.
  intros H. f_equal. apply map_ext_in. exact H.
Qed.

Lemma sumZ_map_zero {A : Type} (f : A -> Z) (l : list A) :
  (forall a, In a l -> f a = 0) -> sumZ (map f l) = 0.
Proof.
  induction l as [|a l IH]; intros H; simpl.
  - reflexivity.
  - rewrite sumZ_cons, H by (now left).
    rewrite IH; [reflexivity|].
    intros b Hb. apply H. now right.
Qed.

Lemma sumZ_map_sub {A : Type} (f g : A -> Z) (l : list A) :
  sumZ (map (fun a => f a - g a) l) = sumZ (map f l) - sumZ (map g l).
Proof.
  induction l as [|a l IH]; simpl.
  - reflexivity.
  - rewrite !sumZ_cons, IH. lia.
Qed.

(** Cells past the end of a list read as the default, so a sum over
    the first [n] cells is a sum over the indices below [n]. *)
Lemma sumZ_firstn_skipn {A : Type} (f : A -> Z) (d : A) (l : list A)
    (lo n : nat) :
  f d = 0 ->
  sumZ (map f (firstn n (skipn lo l)))
  = sumZ (map (fun k => f (nth k l d)) (seq lo n)).
Proof.
  intros Hd. revert lo n.
  induction l as [|a l IH]; intros lo n.
  - rewrite skipn_nil, firstn_nil. simpl. symmetry.
    apply sumZ_map_zero. intros k _. now destruct k.
  - destruct lo as [|lo].
    + destruct n as [|n]; [reflexivity|].
      simpl skipn. simpl firstn. simpl map at 1.
      cbn [seq map nth]. rewrite !sumZ_cons. f_equal.
      rewrite <- seq_shift, map_map. simpl.
      apply (IH 0%nat n).
    + simpl skipn. rewrite IH. rewrite <- seq_shift, map_map.
      reflexivity.
Qed.

Lemma seq_split_at (a b : nat) :
  (a <= b)%nat -> seq 0 b = seq 0 a ++ seq a (b - a).
Proof.
  intros H. replace b with (a + (b - a))%nat at 1 by lia.
  apply seq_app.
Qed.

End Sums.

(** ** The integral image is the table of two-dimensional prefix sums *)

Section IntegralImage.

Lemma row_prefix_0 (r : list Z) : row_prefix r 0 = 0.
Proof. reflexivity. Qed.

Lemma row_prefix_nil (b : nat) : row_prefix [] b = 0.
Proof.
  unfold row_prefix. apply sumZ_map_zero. intros j _. now destruct j.
Qed.

Lemma row_prefix_cons (a : Z) (r : list Z) (b : nat) :
  row_prefix (a :: r) (S b) = a + row_prefix r b.
Proof.
  unfold row_prefix. cbn [seq map nth]. rewrite sumZ_cons.
  now rewrite <- seq_shift, map_map.
Qed.

Lemma row_prefix_S (r : list Z) (b : nat) :
  row_prefix r (S b) = row_prefix r b + nth b r 0.
Proof.
  unfold row_prefix. rewrite seq_S, map_app, sumZ_app. simpl.
  rewrite sumZ_cons, sumZ_nil. lia.
Qed.

Lemma prefix_sum_0_rows (g : grid) (b : nat) : prefix_sum g 0 b = 0.
Proof. reflexivity. Qed.

Lemma prefix_sum_0_cols (g : grid) (a : nat) : prefix_sum g a 0 = 0.
Proof.
  unfold prefix_sum. apply sumZ_map_zero. intros i _. apply row_prefix_0.
Qed.

Lemma prefix_sum_cons (r : list Z) (g : grid) (a b : nat) :
  prefix_sum (r :: g) (S a) b = row_prefix r b + prefix_sum g a b.
Proof.
  unfold prefix_sum. cbn [seq map nth]. rewrite sumZ_cons.
  now rewrite <- seq_shift, map_map.
Qed.

Lemma prefix_sum_S (g : grid) (a b : nat) :
  prefix_sum g (S a) b = prefix_sum g a b + row_prefix (nth a g []) b.
Proof.
  unfold prefix_sum. rewrite seq_S, map_app, sumZ_app. simpl.
  rewrite sumZ_cons, sumZ_nil. lia.
Qed.

Lemma length_cumsum_from (l : list Z) (acc : Z) :
  length (np.cumsum_from acc l) = length l.
Proof.
  revert acc. induction l as [|a l IH]; intros acc; simpl; [reflexivity|].
  now rewrite IH.
Qed.

Lemma nth_cumsum_from (l : list Z) (acc : Z) (x : nat) :
  (x < length l)%nat ->
  nth x (np.cumsum_from acc l) 0 = acc + row_prefix l (S x).
Proof.
  revert acc x. induction l as [|a l IH]; intros acc x Hx; simpl in Hx.
  - lia.
  - rewrite row_prefix_cons. destruct x as [|x]; simpl.
    + rewrite row_prefix_0. lia.
    + rewrite IH by lia. lia.
Qed.

Lemma length_add_rows (a b : list Z) :
  length a = length b -> length (np.add_rows a b) = length a.
Proof.
  intros H. unfold np.add_rows.
  rewrite length_map, length_combine. lia.
Qed.

Lemma nth_add_rows (a b : list Z) (x : nat) :
  length a = length b ->
  nth x (np.add_rows a b) 0 = nth x a 0 + nth x b 0.
Proof.
  revert b x. induction a as [|u a IH]; intros [|v b] x H;
    simpl in H; try discriminate.
  - now destruct x.
  - destruct x as [|x]; simpl; [reflexivity|].
    apply IH. congruence.
Qed.

(** The running sum is additive. *)
Lemma cumsum_from_add_rows (a b : list Z) (s t : Z) :
  length a = length b ->
  np.cumsum_from (s + t) (np.add_rows a b)
  = np.add_rows (np.cumsum_from s a) (np.cumsum_from t b).
Proof.
  revert b s t. induction a as [|u a IH]; intros [|v b] s t H;
    simpl in H; try discriminate.
  - reflexivity.
  - unfold np.add_rows in *. simpl. f_equal; [lia|].
    replace (s + t + (u + v)) with ((s + u) + (t + v)) by lia.
    apply IH. congruence.
Qed.

Lemma length_cumsum_rows_from (rows : grid) (acc : list Z) :
  length (np.cumsum_rows_from acc rows) = length rows.
Proof.
  revert acc. induction rows as [|r rows IH]; intros acc; simpl;
    [reflexivity|]. now rewrite IH.
Qed.

Lemma cumsum_rows_from_cells (w : nat) (rows : grid) :
  rectangular w rows ->
  forall (acc : list Z) (y x : nat),
    length acc = w -> (y < length rows)%nat -> (x < w)%nat ->
    nth x (nth y (map np.cumsum (np.cumsum_rows_from acc rows)) []) 0
    = nth x (np.cumsum acc) 0 + prefix_sum rows (S y) (S x).
Proof.
  induction 1 as [|r rows Hr Hrows IH]; intros acc y x Hacc Hy Hx;
    simpl in Hy; [lia|].
  assert (Hadd : np.cumsum (np.add_rows acc r)
                 = np.add_rows (np.cumsum acc) (np.cumsum r)).
  { unfold np.cumsum. change 0 with (0 + 0) at 1.
    apply cumsum_from_add_rows. congruence. }
  assert (Hlen : length (np.cumsum acc) = length (np.cumsum r)).
  { unfold np.cumsum. rewrite !length_cumsum_from. congruence. }
  assert (Hcell : nth x (np.cumsum (np.add_rows acc r)) 0
                  = nth x (np.cumsum acc) 0 + row_prefix r (S x)).
  { rewrite Hadd, nth_add_rows by exact Hlen. f_equal.
    unfold np.cumsum. rewrite nth_cumsum_from by lia. lia. }
  rewrite prefix_sum_cons. simpl np.cumsum_rows_from. simpl map.
  destruct y as [|y]; cbn [nth].
  - rewrite Hcell, prefix_sum_0_rows. lia.
  - rewrite IH; [| rewrite length_add_rows; congruence | lia | exact Hx].
    rewrite Hcell. lia.
Qed.

Lemma integral_image_cell (w : nat) (img : grid) (y x : nat) :
  rectangular w img -> (y < length img)%nat -> (x < w)%nat ->
  nth x (nth y (integral_image img) []) 0 = prefix_sum img (S y) (S x).
Proof.
  intros Hrect Hy Hx. destruct img as [|r rows]; simpl in Hy; [lia|].
  inversion Hrect as [|? ? Hr Hrows]; subst.
  unfold integral_image, np.cumsum_axis1, np.cumsum_axis0.
  rewrite prefix_sum_cons. simpl map.
  destruct y as [|y]; cbn [nth].
  - unfold np.cumsum. rewrite nth_cumsum_from by exact Hx.
    rewrite prefix_sum_0_rows. lia.
  - rewrite (cumsum_rows_from_cells (length r)); auto; try lia.
    unfold np.cumsum. rewrite nth_cumsum_from by exact Hx. lia.
Qed.

Lemma integral_image_length (img : grid) :
  length (integral_image img) = length img.
Proof.
  unfold integral_image, np.cumsum_axis1, np.cumsum_axis0.
  rewrite length_map. destruct img as [|r rows]; simpl; [reflexivity|].
  now rewrite length_cumsum_rows_from.
Qed.

Lemma cumsum_rows_from_rectangular (w : nat) (rows : grid) :
  rectangular w rows ->
  forall acc, length acc = w ->
    rectangular w (np.cumsum_rows_from acc rows).
Proof.
  induction 1 as [|r rows Hr Hrows IH]; intros acc Hacc; simpl.
  - constructor.
  - assert (length (np.add_rows acc r) = w)
      by (rewrite length_add_rows; congruence).
    constructor; [assumption|]. now apply IH.
Qed.

Lemma integral_image_rectangular (w : nat) (img : grid) :
  rectangular w img -> rectangular w (integral_image img).
Proof.
  intros Hrect. unfold integral_image, np.cumsum_axis1, rectangular.
  apply Forall_map.
  assert (H : rectangular w (np.cumsum_axis0 img)).
  { destruct img as [|r rows]; [constructor|].
    inversion Hrect; subst. simpl. constructor; [reflexivity|].
    now apply cumsum_rows_from_rectangular. }
  eapply Forall_impl; [|exact H].
  intros r Hr. simpl. unfold np.cumsum. now rewrite length_cumsum_from.
Qed.

Lemma map_seq_offset {A : Type} (f : nat -> A) (a n : nat) :
  map f (seq a n) = map (fun k => f (a + k)%nat) (seq 0 n).
Proof.
  revert a. induction n as [|n IH]; intros a; [reflexivity|].
  cbn [seq map]. f_equal; [f_equal; lia|].
  rewrite IH, <- seq_shift, map_map.
  apply map_ext. intros k. f_equal. lia.
Qed.

Lemma zrange_nat (a b : nat) :
  zrange (Z.of_nat a) (Z.of_nat b) = map Z.of_nat (seq a (b - a)).
Proof.
  unfold zrange. rewrite (map_seq_offset Z.of_nat).
  replace (Z.to_nat (Z.of_nat b - Z.of_nat a)) with (b - a)%nat by lia.
  apply map_ext. intros k. lia.
Qed.

Lemma px_nat (g : grid) (x y : nat) :
  px g (Z.of_nat x) (Z.of_nat y) = nth x (nth y g []) 0.
Proof.
  unfold px.
  replace (Z.of_nat x <? 0) with false by (symmetry; apply Z.ltb_ge; lia).
  replace (Z.of_nat y <? 0) with false by (symmetry; apply Z.ltb_ge; lia).
  simpl. now rewrite !Nat2Z.id.
Qed.

Lemma px_negative (g : grid) (x y : Z) : x < 0 \/ y < 0 -> px g x y = 0.
Proof.
  intros H. unfold px.
  destruct (Z.ltb_spec x 0), (Z.ltb_spec y 0); simpl; try reflexivity; lia.
Qed.

Lemma row_segment (r : list Z) (a b : nat) :
  (a <= b)%nat ->
  sumZ (map (fun j => nth j r 0) (seq a (b - a)))
  = row_prefix r b - row_prefix r a.
Proof.
  intros H. unfold row_prefix.
  rewrite (seq_split_at a b H), map_app, sumZ_app. lia.
Qed.

(** The brute-force sum of a rectangle, by prefix sums. *)
Lemma rect_sum_prefix (g : grid) (x0 y0 x1 y1 : nat) :
  (x0 <= x1)%nat -> (y0 <= y1)%nat ->
  rect_sum g (Z.of_nat x0) (Z.of_nat y0) (Z.of_nat x1) (Z.of_nat y1)
  = prefix_sum g y1 x1 - prefix_sum g y0 x1
    - prefix_sum g y1 x0 + prefix_sum g y0 x0.
Proof.
  intros Hx Hy. unfold rect_sum. rewrite !zrange_nat, map_map.
  rewrite (sumZ_map_ext _
    (fun i => row_prefix (nth i g []) x1 - row_prefix (nth i g []) x0)).
  - rewrite sumZ_map_sub. unfold prefix_sum.
    rewrite (seq_split_at y0 y1 Hy), !map_app, !sumZ_app. lia.
  - intros i _. rewrite map_map, <- (row_segment _ x0 x1 Hx).
    apply sumZ_map_ext. intros j _. apply px_nat.
Qed.

(** Reading the integral image one cell up and to the left of [(x, y)]
    gives the prefix sum of the first [y] rows and [x] columns. *)
Lemma px_integral_image (w : nat) (img : grid) (x y : nat) :
  rectangular w img -> (x <= w)%nat -> (y <= length img)%nat ->
  px (integral_image img) (Z.of_nat x - 1) (Z.of_nat y - 1)
  = prefix_sum img y x.
Proof.
  intros Hrect Hx Hy.
  destruct x as [|x].
  { rewrite px_negative by lia. now rewrite prefix_sum_0_cols. }
  destruct y as [|y].
  { rewrite px_negative by lia. now rewrite prefix_sum_0_rows. }
  replace (Z.of_nat (S x) - 1) with (Z.of_nat x) by lia.
  replace (Z.of_nat (S y) - 1) with (Z.of_nat y) by lia.
  rewrite px_nat. apply (integral_image_cell w); auto; lia.
Qed.

Lemma four_corner_prefix (w : nat) (img : grid) (x0 y0 x1 y1 : nat) :
  rectangular w img ->
  (x0 <= x1 <= w)%nat -> (y0 <= y1 <= length img)%nat ->
  four_corner (integral_image img)
    (Z.of_nat x0) (Z.of_nat y0) (Z.of_nat x1) (Z.of_nat y1)
  = prefix_sum img y1 x1 - prefix_sum img y0 x1
    - prefix_sum img y1 x0 + prefix_sum img y0 x0.
Proof.
  intros Hrect Hx Hy. unfold four_corner.
  rewrite !(px_integral_image w) by (auto; lia). lia.
Qed.

Lemma integral_image_recurrence (w : nat) (img : grid) (x y : nat) :
  rectangular w img -> (x < w)%nat -> (y < length img)%nat ->
  px (integral_image img) (Z.of_nat x) (Z.of_nat y)
  = px img (Z.of_nat x) (Z.of_nat y)
    + px (integral_image img) (Z.of_nat x - 1) (Z.of_nat y)
    + px (integral_image img) (Z.of_nat x) (Z.of_nat y - 1)
    - px (integral_image img) (Z.of_nat x - 1) (Z.of_nat y - 1).
Proof.
  intros Hrect Hx Hy.
  pose proof (px_integral_image w img (S x) (S y) Hrect) as H11.
  pose proof (px_integral_image w img x (S y) Hrect) as H01.
  pose proof (px_integral_image w img (S x) y Hrect) as H10.
  pose proof (px_integral_image w img x y Hrect) as H00.
  replace (Z.of_nat (S x) - 1) with (Z.of_nat x) in * by lia.
  replace (Z.of_nat (S y) - 1) with (Z.of_nat y) in * by lia.
  rewrite H11, H01, H10, H00 by lia.
  rewrite px_nat, !prefix_sum_S, !row_prefix_S. lia.
Qed.

End IntegralImage.

(** ** Slices clip: what [compute] sums *)

Section Slices.

Lemma slice_bound_nonneg (a : Z) (n : nat) :
  0 <= a -> Py.slice_bound a n = Nat.min (Z.to_nat a) n.
Proof.
  intros Ha. unfold Py.slice_bound.
  replace (a <? 0) with false by (symmetry; apply Z.ltb_ge; lia).
  lia.
Qed.

Lemma slice_nil {A : Type} (a b : Z) : Py.slice a b (@nil A) = [].
Proof. unfold Py.slice. now rewrite skipn_nil, firstn_nil. Qed.

(** A sum over the indices of [[a, b)] that fall inside [[0, n)] is the
    sum over all of [[a, b)] when the summand vanishes from [n] on. *)
Lemma sum_seq_clip (F : nat -> Z) (n a b : nat) :
  (forall k, (n <= k)%nat -> F k = 0) ->
  sumZ (map F (seq (Nat.min a n) (Nat.min b n - Nat.min a n)))
  = sumZ (map F (seq a (b - a))).
Proof.
  intros Hzero.
  destruct (Nat.le_gt_cases b n) as [Hb|Hb].
  { destruct (Nat.le_gt_cases a n) as [Ha|Ha].
    - now rewrite !Nat.min_l by lia.
    - replace (b - a)%nat with 0%nat by lia.
      now replace (Nat.min b n - Nat.min a n)%nat with 0%nat by lia. }
  destruct (Nat.le_gt_cases a n) as [Ha|Ha].
  - rewrite (Nat.min_l a n), (Nat.min_r b n) by lia.
    replace (b - a)%nat with ((n - a) + (b - n))%nat by lia.
    rewrite seq_app, map_app, sumZ_app.
    rewrite (sumZ_map_zero F (seq (a + (n - a)) (b - n))); [lia|].
    intros k Hk. apply in_seq in Hk. apply Hzero. lia.
  - replace (Nat.min b n - Nat.min a n)%nat with 0%nat by lia.
    simpl. symmetry. apply sumZ_map_zero.
    intros k Hk. apply in_seq in Hk. apply Hzero. lia.
Qed.

Lemma sum_slice {A : Type} (f : A -> Z) (d : A) (l : list A) (a b : Z) :
  0 <= a -> 0 <= b -> f d = 0 ->
  sumZ (map f (Py.slice a b l))
  = sumZ (map (fun k => f (nth (Z.to_nat k) l d)) (zrange a b)).
Proof.
  intros Ha Hb Hd. unfold Py.slice.
  rewrite !slice_bound_nonneg by assumption.
  rewrite (sumZ_firstn_skipn f d) by exact Hd.
  rewrite (sum_seq_clip (fun k => f (nth k l d)) (length l)).
  - replace (zrange a b)
      with (zrange (Z.of_nat (Z.to_nat a)) (Z.of_nat (Z.to_nat b)))
      by (now rewrite !Z2Nat.id).
    rewrite zrange_nat, map_map. apply sumZ_map_ext.
    intros k _. now rewrite Nat2Z.id.
  - intros k Hk. now rewrite nth_overflow.
Qed.

Lemma zrange_lower (a b k : Z) : In k (zrange a b) -> a <= k.
Proof.
  unfold zrange. intros H. apply in_map_iff in H as (j & <- & _). lia.
Qed.

(** [img[ya:yb, xa:xb].sum()] with non-negative bounds is the sum of the
    cells of [[xa, xb) x [ya, yb)], cells outside the grid reading 0. *)
Lemma np_sum_slice2 (g : grid) (xa ya xb yb : Z) :
  0 <= xa -> 0 <= xb -> 0 <= ya -> 0 <= yb ->
  np.sum (np.slice2 ya yb xa xb g) = rect_sum g xa ya xb yb.
Proof.
  intros Hxa Hxb Hya Hyb. unfold np.sum, np.slice2, rect_sum.
  rewrite map_map.
  rewrite (sum_slice (fun r => sumZ (Py.slice xa xb r)) [])
    by (auto; now rewrite slice_nil).
  apply sumZ_map_ext. intros y Hy. apply zrange_lower in Hy.
  rewrite <- (map_id (Py.slice xa xb _)).
  rewrite (sum_slice (fun v => v) 0) by auto.
  apply sumZ_map_ext. intros x Hx. apply zrange_lower in Hx.
  unfold px.
  replace (x <? 0) with false by (symmetry; apply Z.ltb_ge; lia).
  replace (y <? 0) with false by (symmetry; apply Z.ltb_ge; lia).
  reflexivity.
Qed.

Lemma compute_two_rect (x y w h : Z) (int_img : grid) :
  0 <= x -> 0 <= y -> 0 <= w -> 0 <= h ->
  HaarFeature.compute (HaarFeature.Build "two-rect" (x, y) w h) int_img
  = rect_sum int_img x y (x + w / 2) (y + h)
    - rect_sum int_img (x + w / 2) y (x + w) (y + h).
Proof.
  intros Hx Hy Hw Hh.
  assert (0 <= w / 2) by (apply Z.div_pos; lia).
  unfold HaarFeature.compute. simpl.
  rewrite !np_sum_slice2 by lia. reflexivity.
Qed.

(** Whatever the feature and the grid, the call returns. *)
Lemma call_compute_returns (f : HaarFeature.t) (int_img : grid) :
  exists v, call_compute f int_img = Py.Ok v.
Proof. now exists (HaarFeature.compute f int_img). Qed.

End Slices.

(** ** The search of the trainers *)

Section Search.

Lemma Qlt_bool_true (a b : Q) : Py.Qlt_bool a b = true <-> (a < b)%Q.
Proof.
  unfold Py.Qlt_bool. rewrite negb_true_iff. split; intros H.
  - apply Qnot_le_lt. intros Hle. apply Qle_bool_iff in Hle. congruence.
  - destruct (Qle_bool b a) eqn:E; [|reflexivity].
    apply Qle_bool_iff in E. exfalso. exact (Qlt_not_le _ _ H E).
Qed.

Lemma Qlt_bool_false (a b : Q) : Py.Qlt_bool a b = false <-> (b <= a)%Q.
Proof.
  unfold Py.Qlt_bool. rewrite negb_false_iff. apply Qle_bool_iff.
Qed.

Lemma div_positive (a b : Z) : 0 < b -> Py.div a b = Py.Ok (a # Z.to_pos b).
Proof.
  intros Hb. unfold Py.div.
  replace (b =? 0) with false by (symmetry; apply Z.eqb_neq; lia).
  replace (b <? 0) with false by (symmetry; apply Z.ltb_ge; lia).
  reflexivity.
Qed.

Variable feature : HaarFeature.t.
Variable num : WeakClassifier.t -> Z.
Variable N : Z.
Hypothesis N_positive : 0 < N.

(** The two nested loops of a trainer visit [candidates feature] in
    order and never raise when there is at least one sample. *)
Lemma search_loops (st : best) :
  Py.for_each np.linspace_m1_1_10 st (fun st threshold =>
    Py.for_each [1; -1] st (fun st polarity =>
      accuracy <- Py.div
                    (num (WeakClassifier.Build feature threshold polarity)) N ;;
      Py.Ok (keep_better st
               (WeakClassifier.Build feature threshold polarity) accuracy)))
  = Py.Ok (fold_left (fun st c => keep_better st c (num c # Z.to_pos N))
             (candidates feature) st).
Proof.
  unfold candidates. generalize np.linspace_m1_1_10 as ts.
  intros ts. revert st. induction ts as [|t ts IH]; intros st.
  - reflexivity.
  - cbn [Py.for_each flat_map map]. rewrite !div_positive by exact N_positive.
    cbn [Py.bind]. rewrite IH. rewrite fold_left_app. reflexivity.
Qed.

End Search.

Section FirstBest.

Variable score : WeakClassifier.t -> Q.

(** The loop keeps the first candidate of greatest score among those
    that beat the initial [best_accuracy]. *)
Lemma search_first_best (l : list WeakClassifier.t)
    (b0 : option WeakClassifier.t) (a0 : Q) :
  ((forall c, In c l -> (score c <= a0)%Q)
   /\ fold_left (fun st c => keep_better st c (score c)) l (b0, a0) = (b0, a0))
  \/ (exists c,
        fold_left (fun st c => keep_better st c (score c)) l (b0, a0)
        = (Some c, score c)
        /\ (a0 < score c)%Q /\ first_best score l c).
Proof.
  revert b0 a0. induction l as [|c l IH]; intros b0 a0.
  - left. split; [intros c []|reflexivity].
  - cbn [fold_left]. unfold keep_better at 2 4. cbn [snd].
    destruct (Py.Qlt_bool a0 (score c)) eqn:E.
    + apply Qlt_bool_true in E. right.
      destruct (IH (Some c) (score c)) as [[Hall Heq]|(c' & Heq & Hlt & Hfb)].
      * exists c. split; [exact Heq|]. split; [exact E|].
        exists [], l. split; [reflexivity|]. split; [intros ? []|exact Hall].
      * exists c'. split; [exact Heq|]. split; [eapply Qlt_trans; eauto|].
        destruct Hfb as (before & after & -> & Hb & Ha).
        exists (c :: before), after. split; [reflexivity|]. split; [|exact Ha].
        intros c'' [<-|Hin]; [exact Hlt|now apply Hb].
    + apply Qlt_bool_false in E.
      destruct (IH b0 a0) as [[Hall Heq]|(c' & Heq & Hlt & Hfb)].
      * left. split; [|exact Heq].
        intros c'' [<-|Hin]; [exact E|now apply Hall].
      * right. exists c'. split; [exact Heq|]. split; [exact Hlt|].
        destruct Hfb as (before & after & -> & Hb & Ha).
        exists (c :: before), after. split; [reflexivity|]. split; [|exact Ha].
        intros c'' [<-|Hin]; [eapply Qle_lt_trans; eauto|now apply Hb].
Qed.

(** From [(None, 0)], a candidate of positive score makes the loop end
    on the first best candidate. *)
Lemma search_from_none (l : list WeakClassifier.t) (c0 : WeakClassifier.t) :
  In c0 l -> (0 < score c0)%Q ->
  exists c,
    fold_left (fun st c => keep_better st c (score c)) l (None, 0%Q)
    = (Some c, score c)
    /\ first_best score l c.
Proof.
  intros Hin Hpos.
  destruct (search_first_best l None 0%Q) as [[Hall _]|(c & Heq & _ & Hfb)].
  - exfalso. apply (Qlt_not_le _ _ Hpos). now apply Hall.
  - exists c. now split.
Qed.

End FirstBest.

(** ** Predictions and counts *)

Section Predictions.

Lemma predict_01 (c : WeakClassifier.t) (int_img : grid) :
  WeakClassifier.predict c int_img = 0 \/ WeakClassifier.predict c int_img = 1.
Proof.
  unfold WeakClassifier.predict.
  destruct (Py.Qlt_bool _ _); [now right|now left].
Qed.

Lemma predict_1_iff (f : HaarFeature.t) (t : Q) (p : Z) (int_img : grid) :
  WeakClassifier.predict (WeakClassifier.Build f t p) int_img = 1
  <-> (inject_Z (p * HaarFeature.compute f int_img) < inject_Z p * t)%Q.
Proof.
  unfold WeakClassifier.predict. cbn.
  rewrite <- Qlt_bool_true.
  destruct (Py.Qlt_bool _ _); split; intros H; congruence.
Qed.

(** On integer values the four extreme candidates accept, in turn, the
    values below -1, above -1, below 1 and above 1. *)
Lemma predict_below_minus_one (f : HaarFeature.t) (int_img : grid) :
  WeakClassifier.predict (WeakClassifier.Build f (-9 # 9) 1) int_img = 1
  <-> HaarFeature.compute f int_img < -1.
Proof. rewrite predict_1_iff. q_compare. Qed.

Lemma predict_above_minus_one (f : HaarFeature.t) (int_img : grid) :
  WeakClassifier.predict (WeakClassifier.Build f (-9 # 9) (-1)) int_img = 1
  <-> -1 < HaarFeature.compute f int_img.
Proof. rewrite predict_1_iff. q_compare. Qed.

Lemma predict_below_one (f : HaarFeature.t) (int_img : grid) :
  WeakClassifier.predict (WeakClassifier.Build f (9 # 9) 1) int_img = 1
  <-> HaarFeature.compute f int_img < 1.
Proof. rewrite predict_1_iff. q_compare. Qed.

Lemma predict_above_one (f : HaarFeature.t) (int_img : grid) :
  WeakClassifier.predict (WeakClassifier.Build f (9 # 9) (-1)) int_img = 1
  <-> 1 < HaarFeature.compute f int_img.
Proof. rewrite predict_1_iff. q_compare. Qed.

Lemma candidates_length (f : HaarFeature.t) : length (candidates f) = 20%nat.
Proof. reflexivity. Qed.

Lemma candidates_extremes (f : HaarFeature.t) (p : Z) :
  p = 1 \/ p = -1 ->
  In (WeakClassifier.Build f (-9 # 9) p) (candidates f)
  /\ In (WeakClassifier.Build f (9 # 9) p) (candidates f).
Proof. intros [-> | ->]; unfold candidates; cbn; tauto. Qed.

(** For any one sample, some candidate classifies it as 1 and some
    candidate classifies it as 0. *)
Lemma some_candidate_accepts (f : HaarFeature.t) (int_img : grid) :
  exists c, In c (candidates f) /\ WeakClassifier.predict c int_img = 1.
Proof.
  destruct (Z_lt_le_dec (HaarFeature.compute f int_img) 1) as [H|H].
  - exists (WeakClassifier.Build f (9 # 9) 1).
    split; [apply candidates_extremes; auto|]. now apply predict_below_one.
  - exists (WeakClassifier.Build f (-9 # 9) (-1)).
    split; [apply candidates_extremes; auto|].
    apply predict_above_minus_one. lia.
Qed.

Lemma some_candidate_rejects (f : HaarFeature.t) (int_img : grid) :
  exists c, In c (candidates f) /\ WeakClassifier.predict c int_img = 0.
Proof.
  destruct (Z_lt_le_dec (HaarFeature.compute f int_img) (-1)) as [H|H].
  - exists (WeakClassifier.Build f (9 # 9) (-1)).
    split; [apply candidates_extremes; auto|].
    destruct (predict_01 (WeakClassifier.Build f (9 # 9) (-1)) int_img)
      as [E|E]; [exact E|].
    apply predict_above_one in E. lia.
  - exists (WeakClassifier.Build f (-9 # 9) 1).
    split; [apply candidates_extremes; auto|].
    destruct (predict_01 (WeakClassifier.Build f (-9 # 9) 1) int_img)
      as [E|E]; [exact E|].
    apply predict_below_minus_one in E. lia.
Qed.

(** A counting loop never decreases its counter. *)
Lemma count_loop_ge (P : grid -> bool) (imgs : list grid) (c0 : Z) :
  c0 <= fold_left (fun correct img => if P img then correct + 1 else correct)
          imgs c0.
Proof.
  revert c0. induction imgs as [|img imgs IH]; intros c0; cbn [fold_left].
  - lia.
  - destruct (P img); [specialize (IH (c0 + 1))|specialize (IH c0)]; lia.
Qed.

Lemma count_correct_nonneg (c : WeakClassifier.t) (pos neg : list grid) :
  0 <= count_correct c pos neg.
Proof.
  unfold count_correct.
  eapply Z.le_trans; [|apply count_loop_ge]. apply count_loop_ge.
Qed.

Lemma count_correct_pos_hit (c : WeakClassifier.t) (img : grid)
    (pos neg : list grid) :
  WeakClassifier.predict c (integral_image img) = 1 ->
  1 <= count_correct c (img :: pos) neg.
Proof.
  intros H. unfold count_correct. cbn [fold_left]. rewrite H. cbn [Z.eqb Pos.eqb].
  eapply Z.le_trans; [|apply count_loop_ge].
  eapply Z.le_trans; [|apply count_loop_ge]. lia.
Qed.

Lemma count_correct_neg_hit (c : WeakClassifier.t) (img : grid)
    (pos neg : list grid) :
  WeakClassifier.predict c (integral_image img) = 0 ->
  1 <= count_correct c pos (img :: neg).
Proof.
  intros H. unfold count_correct. cbn [fold_left]. rewrite H. cbn [Z.eqb].
  eapply Z.le_trans; [|apply count_loop_ge].
  pose proof (count_loop_ge
    (fun img => WeakClassifier.predict c (integral_image img) =? 1) pos 0).
  lia.
Qed.

Lemma append_loop {A : Type} (g : A -> Z) (l : list A) (acc : list Z) :
  fold_left (fun predictions img => predictions ++ [g img]) l acc
  = acc ++ map g l.
Proof.
  revert acc. induction l as [|a l IH]; intros acc; cbn [fold_left map].
  - now rewrite app_nil_r.
  - rewrite IH, <- app_assoc. reflexivity.
Qed.

Lemma predictions_of_eq (c : WeakClassifier.t) (pos neg : list grid) :
  predictions_of c pos neg
  = map (WeakClassifier.predict c) pos
    ++ map (fun img => 1 - WeakClassifier.predict c img) neg.
Proof.
  unfold predictions_of. now rewrite !append_loop.
Qed.

Lemma sumZ_nonneg (l : list Z) : Forall (fun v => 0 <= v) l -> 0 <= sumZ l.
Proof.
  induction 1 as [|v l Hv Hl IH]; [now rewrite sumZ_nil|].
  rewrite sumZ_cons. lia.
Qed.

Lemma sum_predictions_nonneg (c : WeakClassifier.t) (imgs : list grid) :
  0 <= sumZ (map (WeakClassifier.predict c) imgs)
  /\ 0 <= sumZ (map (fun img => 1 - WeakClassifier.predict c img) imgs).
Proof.
  split; apply sumZ_nonneg, Forall_map, Forall_forall; intros img _;
    destruct (predict_01 c img); lia.
Qed.

Lemma predictions_pos_hit (c : WeakClassifier.t) (img : grid)
    (pos neg : list grid) :
  WeakClassifier.predict c img = 1 ->
  1 <= sumZ (predictions_of c (img :: pos) neg).
Proof.
  intros H. rewrite predictions_of_eq, sumZ_app. cbn [map].
  rewrite sumZ_cons, H.
  pose proof (sum_predictions_nonneg c pos).
  pose proof (sum_predictions_nonneg c neg). lia.
Qed.

Lemma predictions_neg_hit (c : WeakClassifier.t) (img : grid)
    (pos neg : list grid) :
  WeakClassifier.predict c img = 0 ->
  1 <= sumZ (predictions_of c pos (img :: neg)).
Proof.
  intros H. rewrite predictions_of_eq, sumZ_app. cbn [map].
  rewrite sumZ_cons, H.
  pose proof (sum_predictions_nonneg c pos).
  pose proof (sum_predictions_nonneg c neg). lia.
Qed.

Lemma positive_fraction (a b : Z) : 1 <= a -> (0 < a # Z.to_pos b)%Q.
Proof. intros H. unfold Qlt. cbn [Qnum Qden]. lia. Qed.

End Predictions.

(** ** What the two trainers return *)

Section Trainers.

Lemma total_positive (pos neg : list grid) :
  pos <> [] \/ neg <> [] ->
  0 < Z.of_nat (length pos) + Z.of_nat (length neg).
Proof.
  intros [H|H]; [destruct pos|destruct neg]; try congruence;
    cbn [length]; lia.
Qed.

Lemma accuracy_positive (pos neg : list grid) (feature : HaarFeature.t) :
  pos <> [] \/ neg <> [] ->
  exists c, In c (candidates feature) /\ (0 < loop_accuracy pos neg c)%Q.
Proof.
  intros [H|H].
  - destruct pos as [|img pos]; [congruence|].
    destruct (some_candidate_accepts feature (integral_image img))
      as (c & Hin & Hc).
    exists c. split; [exact Hin|].
    apply positive_fraction. now apply count_correct_pos_hit.
  - destruct neg as [|img neg]; [congruence|].
    destruct (some_candidate_rejects feature (integral_image img))
      as (c & Hin & Hc).
    exists c. split; [exact Hin|].
    apply positive_fraction. now apply count_correct_neg_hit.
Qed.

Lemma raw_score_positive (pos neg : list grid) (feature : HaarFeature.t) :
  pos <> [] \/ neg <> [] ->
  exists c, In c (candidates feature) /\ (0 < raw_score pos neg c)%Q.
Proof.
  intros [H|H].
  - destruct pos as [|img pos]; [congruence|].
    destruct (some_candidate_accepts feature img) as (c & Hin & Hc).
    exists c. split; [exact Hin|].
    apply positive_fraction. now apply predictions_pos_hit.
  - destruct neg as [|img neg]; [congruence|].
    destruct (some_candidate_rejects feature img) as (c & Hin & Hc).
    exists c. split; [exact Hin|].
    apply positive_fraction. now apply predictions_neg_hit.
Qed.

Lemma train_classifier_result (pos neg : list grid) (feature : HaarFeature.t) :
  pos <> [] \/ neg <> [] ->
  exists c,
    train_classifier pos neg feature = Py.Ok (Some c)
    /\ first_best (loop_accuracy pos neg) (candidates feature) c.
Proof.
  intros Hne.
  pose proof (search_loops feature (fun c => count_correct c pos neg) _
                (total_positive pos neg Hne) (None, 0%Q)) as Hloops.
  cbv beta zeta in Hloops.
  destruct (accuracy_positive pos neg feature Hne) as (c0 & Hin & Hpos).
  destruct (search_from_none (loop_accuracy pos neg) _ c0 Hin Hpos)
    as (c & Heq & Hfb).
  exists c. split; [|exact Hfb].
  unfold loop_accuracy in Heq. rewrite Heq in Hloops.
  unfold train_classifier. cbv zeta.
  match goal with
  | |- Py.bind ?loops _ = _ =>
      replace loops with (Py.Ok (Some c, loop_accuracy pos neg c))
        by (symmetry; exact Hloops)
  end.
  reflexivity.
Qed.

Lemma adaboost_round_result (pos neg : list grid) (feature : HaarFeature.t) :
  pos <> [] \/ neg <> [] ->
  exists c,
    first_best (raw_score pos neg) (candidates feature) c
    /\ forall weights classifiers,
         adaboost_round (length pos) (length neg) pos neg
           (weights, classifiers) feature
         = Py.Ok (weights, classifiers ++ [Some c]).
Proof.
  intros Hne.
  pose proof (search_loops feature
                (fun c => sumZ (predictions_of c pos neg)) _
                (total_positive pos neg Hne) (None, 0%Q)) as Hloops.
  cbv beta zeta in Hloops.
  destruct (raw_score_positive pos neg feature Hne) as (c0 & Hin & Hpos).
  destruct (search_from_none (raw_score pos neg) _ c0 Hin Hpos)
    as (c & Heq & Hfb).
  exists c. split; [exact Hfb|]. intros weights classifiers.
  unfold raw_score in Heq. rewrite Heq in Hloops.
  unfold adaboost_round. cbv zeta.
  match goal with
  | |- Py.bind ?loops _ = _ =>
      replace loops with (Py.Ok (Some c, raw_score pos neg c))
        by (symmetry; exact Hloops)
  end.
  reflexivity.
Qed.

Lemma adaboost_loop_result (pos neg : list grid)
    (features : list HaarFeature.t) :
  pos <> [] \/ neg <> [] ->
  exists cs,
    Forall2 (fun f c => first_best (raw_score pos neg) (candidates f) c)
      features cs
    /\ forall weights classifiers,
         Py.for_each features (weights, classifiers)
           (adaboost_round (length pos) (length neg) pos neg)
         = Py.Ok (weights, classifiers ++ map Some cs).
Proof.
  intros Hne. induction features as [|f features IH].
  - exists []. split; [constructor|]. intros weights classifiers.
    cbn. now rewrite app_nil_r.
  - destruct (adaboost_round_result pos neg f Hne) as (c & Hfb & Hround).
    destruct IH as (cs & Hall & Hrest).
    exists (c :: cs). split; [now constructor|]. intros weights classifiers.
    cbn [Py.for_each]. rewrite Hround. cbn [Py.bind]. rewrite Hrest.
    cbn [map]. now rewrite <- app_assoc.
Qed.

End Trainers.

(** ** Stages and the cascade *)

Section Cascade.

Variable integral_img : grid.

Lemma sum_predictions_eq (clfs : list WeakClassifier.t) (total : Z) :
  CascadeStage.sum_predictions total clfs integral_img
  = (total + sumZ (map (fun clf => WeakClassifier.predict clf integral_img)
                       clfs),
     clfs).
Proof.
  revert total. induction clfs as [|clf clfs IH]; intros total.
  - cbn. rewrite sumZ_nil. unfold ret. f_equal. lia.
  - cbn [CascadeStage.sum_predictions map]. unfold pbind, call_predict.
    rewrite IH, sumZ_cons. cbn [app]. f_equal. lia.
Qed.

Lemma classify_eq (stage : CascadeStage.t) :
  CascadeStage.classify stage integral_img
  = (Qle_bool (CascadeStage.threshold stage)
       (inject_Z (sumZ (map (fun clf => WeakClassifier.predict clf integral_img)
                            (CascadeStage.classifiers stage)))),
     CascadeStage.classifiers stage).
Proof.
  unfold CascadeStage.classify. rewrite sum_predictions_eq.
  unfold pbind, ret. now rewrite app_nil_r.
Qed.

Lemma classify_calls (stage : CascadeStage.t) :
  snd (CascadeStage.classify stage integral_img)
  = CascadeStage.classifiers stage.
Proof. now rewrite classify_eq. Qed.

Lemma detect_loop_pass (stage : CascadeStage.t) (rest : list CascadeStage.t) :
  passes integral_img stage ->
  HaarCascade.detect_loop (stage :: rest) integral_img
  = (fst (HaarCascade.detect_loop rest integral_img),
     CascadeStage.classifiers stage
     ++ snd (HaarCascade.detect_loop rest integral_img)).
Proof.
  unfold passes. intros H. cbn [HaarCascade.detect_loop].
  pose proof (classify_calls stage) as Hcalls.
  destruct (CascadeStage.classify stage integral_img) as [b calls].
  cbn in H, Hcalls. subst. cbn.
  now destruct (HaarCascade.detect_loop rest integral_img).
Qed.

Lemma detect_loop_reject (stage : CascadeStage.t) (rest : list CascadeStage.t) :
  rejects integral_img stage ->
  HaarCascade.detect_loop (stage :: rest) integral_img
  = (false, CascadeStage.classifiers stage).
Proof.
  unfold rejects. intros H. cbn [HaarCascade.detect_loop].
  pose proof (classify_calls stage) as Hcalls.
  destruct (CascadeStage.classify stage integral_img) as [b calls].
  cbn in H, Hcalls. subst. cbn. now rewrite app_nil_r.
Qed.

Lemma passes_or_rejects (stage : CascadeStage.t) :
  passes integral_img stage \/ rejects integral_img stage.
Proof.
  unfold passes, rejects.
  destruct (fst (CascadeStage.classify stage integral_img)); auto.
Qed.

Lemma detect_loop_trace (stages : list CascadeStage.t) :
  (exists before stage after,
      stages = before ++ stage :: after
      /\ Forall (passes integral_img) before
      /\ rejects integral_img stage
      /\ HaarCascade.detect_loop stages integral_img
         = (false, calls_of (before ++ [stage])))
  \/ (Forall (passes integral_img) stages
      /\ HaarCascade.detect_loop stages integral_img
         = (true, calls_of stages)).
Proof.
  induction stages as [|stage rest IH].
  - right. split; [constructor|reflexivity].
  - destruct (passes_or_rejects stage) as [Hp|Hr].
    + rewrite (detect_loop_pass stage rest Hp).
      destruct IH as [(before & s & after & -> & Hall & Hrej & Heq)|[Hall Heq]].
      * left. exists (stage :: before), s, after.
        split; [reflexivity|]. split; [now constructor|].
        split; [exact Hrej|]. now rewrite Heq.
      * right. split; [now constructor|]. now rewrite Heq.
    + left. exists [], stage, rest.
      split; [reflexivity|]. split; [constructor|]. split; [exact Hr|].
      rewrite (detect_loop_reject stage rest Hr).
      unfold calls_of. cbn. now rewrite app_nil_r.
Qed.

End Cascade.

(** ** The sliding window *)

Section SlidingWindow.

Lemma range_positive (stop step : Z) :
  0 < step -> Py.range 0 stop step = Py.Ok (steps_below stop step).
Proof.
  intros H. unfold Py.range, Py.range_len, steps_below.
  replace (step =? 0) with false by (symmetry; apply Z.eqb_neq; lia).
  replace (0 <? step) with true by (symmetry; apply Z.ltb_lt; lia).
  reflexivity.
Qed.

Lemma in_steps_below (stop step y : Z) :
  0 < step ->
  In y (steps_below stop step) <-> 0 <= y < stop /\ y mod step = 0.
Proof.
  intros Hstep. unfold steps_below. rewrite in_map_iff. split.
  - intros (k & <- & Hk). apply in_seq in Hk.
    assert (Hq : Z.of_nat k + 1 <= (stop - 0 + step - 1) / step) by lia.
    assert (Hmul : step * ((stop - 0 + step - 1) / step) <= stop - 0 + step - 1)
      by (apply Z.mul_div_le; lia).
    split; [nia|].
    replace (0 + step * Z.of_nat k) with (Z.of_nat k * step) by lia.
    apply Z_mod_mult.
  - intros [Hy Hmod].
    assert (Hex : y = step * (y / step)) by (apply Z_div_exact_full_2; lia).
    assert (Hk : 0 <= y / step) by (apply Z.div_pos; lia).
    exists (Z.to_nat (y / step)). split; [lia|].
    apply in_seq. split; [lia|].
    assert (Hlt : y / step < (stop - 0 + step - 1) / step).
    { apply Z.div_lt_upper_bound; [lia|].
      assert (stop - 0 + step - 1 < step * ((stop - 0 + step - 1) / step) + step).
      { pose proof (Z.mod_pos_bound (stop - 0 + step - 1) step Hstep).
        pose proof (Z.div_mod (stop - 0 + step - 1) step). lia. }
      nia. }
    lia.
Qed.

Lemma steps_below_empty (stop step : Z) :
  0 < step -> stop <= 0 -> steps_below stop step = [].
Proof.
  intros Hstep Hstop.
  destruct (steps_below stop step) as [|y l] eqn:E; [reflexivity|].
  assert (Hin : In y (steps_below stop step)) by (rewrite E; now left).
  apply in_steps_below in Hin; lia.
Qed.

Lemma bind_ok {A B : Type} (a : A) (k : A -> Py.result B) :
  Py.bind (Py.Ok a) k = k a.
Proof. reflexivity. Qed.

(** The inner loop appends the accepted origins of one row, in order. *)
Lemma inner_loop (keep : Z -> bool) (mk : Z -> region) (xs : list Z)
    (detected_regions : list region) :
  Py.for_each xs detected_regions (fun detected_regions x =>
    if keep x then Py.Ok (detected_regions ++ [mk x])
    else Py.Ok detected_regions)
  = Py.Ok (detected_regions ++ map mk (filter keep xs)).
Proof.
  revert detected_regions.
  induction xs as [|x xs IH]; intros detected_regions; cbn [Py.for_each].
  - cbn. now rewrite app_nil_r.
  - cbn [filter]. destruct (keep x); cbn [Py.bind]; rewrite IH.
    + cbn [map]. now rewrite <- app_assoc.
    + reflexivity.
Qed.

Lemma outer_loop (keep : Z -> Z -> bool) (mk : Z -> Z -> region)
    (stop step : Z) (ys : list Z) (detected_regions : list region) :
  0 < step ->
  Py.for_each ys detected_regions (fun detected_regions y =>
    xs <- Py.range 0 stop step ;;
    Py.for_each xs detected_regions (fun detected_regions x =>
      if keep y x then Py.Ok (detected_regions ++ [mk y x])
      else Py.Ok detected_regions))
  = Py.Ok (detected_regions
           ++ flat_map (fun y => map (mk y)
                                     (filter (keep y) (steps_below stop step)))
                ys).
Proof.
  intros Hstep. rewrite range_positive by exact Hstep.
  revert detected_regions.
  induction ys as [|y ys IH]; intros detected_regions; cbn [Py.for_each].
  - cbn. now rewrite app_nil_r.
  - rewrite bind_ok. cbv beta.
    rewrite (inner_loop (keep y) (mk y)). rewrite bind_ok. cbv beta.
    rewrite IH. cbn [flat_map]. now rewrite <- app_assoc.
Qed.

(** With a positive step the scan raises nothing and returns, row by
    row, the accepted origins among the multiples of the step. *)
Lemma sliding_window_positive (image : grid) (cascade : HaarCascade.t)
    (w h step : Z) :
  0 < step ->
  sliding_window image cascade (w, h) step
  = Py.Ok (flat_map (fun y =>
             map (fun x => (x, y, w, h))
                 (filter (fun x => accepts_window cascade image (w, h) x y)
                         (steps_below (np.shape1 image - w) step)))
             (steps_below (np.shape0 image - h) step)).
Proof.
  intros Hstep. unfold sliding_window.
  rewrite range_positive by exact Hstep. rewrite bind_ok.
  exact (outer_loop
           (fun y x => accepts_window cascade image (w, h) x y)
           (fun y x => (x, y, w, h)) _ _ _ [] Hstep).
Qed.

Lemma in_sliding_window (image : grid) (cascade : HaarCascade.t)
    (w h step : Z) (r : region) :
  0 < step ->
  In r (flat_map (fun y =>
          map (fun x => (x, y, w, h))
              (filter (fun x => accepts_window cascade image (w, h) x y)
                      (steps_below (np.shape1 image - w) step)))
          (steps_below (np.shape0 image - h) step))
  <-> exists x y,
        r = (x, y, w, h)
        /\ (0 <= y < np.shape0 image - h /\ y mod step = 0)
        /\ (0 <= x < np.shape1 image - w /\ x mod step = 0)
        /\ accepts_window cascade image (w, h) x y = true.
Proof.
  intros Hstep. rewrite in_flat_map. split.
  - intros (y & Hy & Hr). apply in_map_iff in Hr as (x & <- & Hx).
    apply filter_In in Hx as [Hx Hacc].
    exists x, y. split; [reflexivity|].
    split; [now apply in_steps_below|].
    split; [now apply in_steps_below|exact Hacc].
  - intros (x & y & -> & Hy & Hx & Hacc).
    exists y. split; [now apply in_steps_below|].
    apply in_map_iff. exists x. split; [reflexivity|].
    apply filter_In. split; [now apply in_steps_below|exact Hacc].
Qed.

End SlidingWindow.

(** ** More on the candidates and the raw count *)

Section Grid.

Lemma in_candidates (feature : HaarFeature.t) (c : WeakClassifier.t) :
  In c (candidates feature)
  <-> exists k p,
        (k < 10)%nat /\ (p = 1 \/ p = -1)
        /\ c = WeakClassifier.Build feature ((2 * Z.of_nat k - 9) # 9) p.
Proof.
  unfold candidates, np.linspace_m1_1_10. rewrite in_flat_map. split.
  - intros (t & Ht & Hc). apply in_map_iff in Ht as (k & <- & Hk).
    apply in_seq in Hk. apply in_map_iff in Hc as (p & <- & Hp).
    exists k, p. split; [lia|]. split; [|reflexivity].
    destruct Hp as [<-|[<-|[]]]; auto.
  - intros (k & p & Hk & Hp & ->).
    exists ((2 * Z.of_nat k - 9) # 9). split.
    + apply in_map_iff. exists k. split; [reflexivity|]. apply in_seq. lia.
    + apply in_map_iff. exists p. split; [reflexivity|].
      destruct Hp as [-> | ->]; cbn; auto.
Qed.

Lemma count_ones (c : WeakClassifier.t) (imgs : list grid) :
  sumZ (map (WeakClassifier.predict c) imgs)
  = Z.of_nat (length (filter (fun img => WeakClassifier.predict c img =? 1)
                             imgs)).
Proof.
  induction imgs as [|img imgs IH]; [reflexivity|].
  cbn [map filter]. rewrite sumZ_cons, IH.
  destruct (predict_01 c img) as [E|E]; rewrite E; cbn [Z.eqb Pos.eqb length];
    lia.
Qed.

Lemma count_zeros (c : WeakClassifier.t) (imgs : list grid) :
  sumZ (map (fun img => 1 - WeakClassifier.predict c img) imgs)
  = Z.of_nat (length (filter (fun img => WeakClassifier.predict c img =? 0)
                             imgs)).
Proof.
  induction imgs as [|img imgs IH]; [reflexivity|].
  cbn [map filter]. rewrite sumZ_cons, IH.
  destruct (predict_01 c img) as [E|E]; rewrite E; cbn [Z.eqb length]; lia.
Qed.

(** The numerator of the raw score counts the positives classified 1
    and the negatives classified 0. *)
Lemma raw_count (c : WeakClassifier.t) (pos neg : list grid) :
  sumZ (predictions_of c pos neg)
  = Z.of_nat (length (filter (fun img => WeakClassifier.predict c img =? 1) pos))
    + Z.of_nat (length (filter (fun img => WeakClassifier.predict c img =? 0) neg)).
Proof.
  now rewrite predictions_of_eq, sumZ_app, count_ones, count_zeros.
Qed.

Lemma count_loop_eq (P : grid -> bool) (imgs : list grid) (c0 : Z) :
  fold_left (fun correct img => if P img then correct + 1 else correct)
    imgs c0
  = c0 + Z.of_nat (length (filter P imgs)).
Proof.
  revert c0. induction imgs as [|img imgs IH]; intros c0;
    cbn [fold_left filter].
  - cbn [length]. lia.
  - rewrite IH. destruct (P img); cbn [length]; lia.
Qed.

Lemma count_correct_eq (c : WeakClassifier.t) (pos neg : list grid) :
  count_correct c pos neg
  = Z.of_nat (length (filter
      (fun img => WeakClassifier.predict c (integral_image img) =? 1) pos))
    + Z.of_nat (length (filter
        (fun img => WeakClassifier.predict c (integral_image img) =? 0) neg)).
Proof.
  unfold count_correct. cbv zeta.
  rewrite (count_loop_eq
    (fun img => WeakClassifier.predict c (integral_image img) =? 0)).
  rewrite (count_loop_eq
    (fun img => WeakClassifier.predict c (integral_image img) =? 1)).
  lia.
Qed.

(** The counter of the loop counts what [accuracy] counts. *)
Lemma loop_accuracy_eq (pos neg : list grid) (c : WeakClassifier.t) :
  loop_accuracy pos neg c = accuracy pos neg c.
Proof.
  unfold loop_accuracy, accuracy. now rewrite count_correct_eq.
Qed.

Lemma flat_map_nil {A B : Type} (f : A -> list B) (l : list A) :
  (forall a, In a l -> f a = []) -> flat_map f l = [].
Proof.
  induction l as [|a l IH]; intros H; [reflexivity|].
  cbn [flat_map]. rewrite H by now left. apply IH.
  intros b Hb. apply H. now right.
Qed.

End Grid.

(** * The claims *)

(** ** C1: the two-rectangle response *)

(** C1.  On the 4x4 sample the left half of the full box sums to 16 and
    the right half to 24, so the response by four-corner lookups is
    16 - 24 = -8; [compute] returns -94 instead, because it adds up the
    entries of the integral image inside each half where it should
    look up four corners. *)
Theorem compute_full_box_on_sample :
  rect_sum sample 0 0 2 4 = 16
  /\ rect_sum sample 2 0 4 4 = 24
  /\ spec_two_rect full_box (integral_image sample) = -8
  /\ HaarFeature.compute full_box (integral_image sample) = -94.
Proof. repeat split; vm_compute; reflexivity. Qed.

(** ** C2: the integral image *)

(** C2, as stated, at the sample: the entry at (3, 3) is not 36. *)
Lemma integral_image_sample_corner_not_36 :
  px (integral_image sample) 3 3 <> 36.
Proof. vm_compute. discriminate. Qed.

(** C2, amended.  For every non-empty rectangular grid the integral
    image has the dimensions of the grid, satisfies
    I(x,y) = Image(x,y) + I(x-1,y) + I(x,y-1) - I(x-1,y-1) with entries
    at index -1 read as 0, and its four-corner lookup equals the
    brute-force sum of every rectangle inside the grid; on the 4x4
    sample the entry at (3, 3) is 40. *)
Theorem integral_image_correct (w : nat) (img : grid) :
  img <> [] -> (0 < w)%nat -> rectangular w img ->
  (length (integral_image img) = length img
   /\ rectangular w (integral_image img))
  /\ (forall x y,
        0 <= x < Z.of_nat w -> 0 <= y < Z.of_nat (length img) ->
        px (integral_image img) x y
        = px img x y
          + px (integral_image img) (x - 1) y
          + px (integral_image img) x (y - 1)
          - px (integral_image img) (x - 1) (y - 1))
  /\ (forall x0 y0 x1 y1,
        0 <= x0 <= x1 -> x1 <= Z.of_nat w ->
        0 <= y0 <= y1 -> y1 <= Z.of_nat (length img) ->
        four_corner (integral_image img) x0 y0 x1 y1
        = rect_sum img x0 y0 x1 y1)
  /\ px (integral_image sample) 3 3 = 40.
Proof.
  intros _ _ Hrect. split; [|split; [|split]].
  - split; [apply integral_image_length|now apply integral_image_rectangular].
  - intros x y Hx Hy.
    rewrite <- (Z2Nat.id x), <- (Z2Nat.id y) by lia.
    apply (integral_image_recurrence w); auto; lia.
  - intros x0 y0 x1 y1 Hx0 Hx1 Hy0 Hy1.
    rewrite <- (Z2Nat.id x0), <- (Z2Nat.id y0),
            <- (Z2Nat.id x1), <- (Z2Nat.id y1) by lia.
    rewrite (four_corner_prefix w), rect_sum_prefix by (auto; lia).
    reflexivity.
  - reflexivity.
Qed.

Lemma integral_image_correct_witness :
  sample <> [] /\ (0 < 4)%nat /\ rectangular 4 sample
  /\ px (integral_image sample) 2 1
     = px sample 2 1 + px (integral_image sample) 1 1
       + px (integral_image sample) 2 0 - px (integral_image sample) 1 0
  /\ four_corner (integral_image sample) 1 1 3 4 = rect_sum sample 1 1 3 4.
Proof.
  assert (Hne : sample <> []) by discriminate.
  assert (Hw : (0 < 4)%nat) by lia.
  assert (Hrect : rectangular 4 sample)
    by (repeat constructor).
  split; [exact Hne|]. split; [exact Hw|]. split; [exact Hrect|].
  destruct (integral_image_correct 4 sample Hne Hw Hrect)
    as (_ & Hrec & Hfour & _).
  split.
  - apply (Hrec 2 1); simpl; lia.
  - apply (Hfour 1 1 3 4); simpl; lia.
Defined.

(** ** C3 and C10: the sliding window *)

(** C3, as stated, at the 28x28 image: with a cascade that accepts
    every window the scan returns the origin (0, 0) alone, so the origin
    (4, 0) is not produced. *)
Lemma sliding_window_28_skips_origin_4_0 :
  ~ (exists regions,
       sliding_window (zeros 28 28) no_stages (24, 24) 4 = Py.Ok regions
       /\ In (0, 0, 24, 24) regions /\ In (4, 0, 24, 24) regions).
Proof.
  intros (regions & Hrun & _ & Hin).
  vm_compute in Hrun. injection Hrun as <-.
  destruct Hin as [Heq|[]]. discriminate Heq.
Qed.

(** C3, amended.  For every image, window size (w, h) and positive
    step, the scan returns exactly the accepted windows whose origin
    (x, y) has y in [0, height - h) and x in [0, width - w), both
    multiples of the step; on a 28x28 image with a 24x24 window and
    stride 4 the only origin visited is (0, 0), never (4, 0), (24, 0)
    or beyond. *)
Theorem sliding_window_origins (image : grid) (cascade : HaarCascade.t)
    (w h step : Z) :
  0 < step ->
  exists regions,
    sliding_window image cascade (w, h) step = Py.Ok regions
    /\ (forall r,
          In r regions
          <-> exists x y,
                r = (x, y, w, h)
                /\ (0 <= y < np.shape0 image - h /\ y mod step = 0)
                /\ (0 <= x < np.shape1 image - w /\ x mod step = 0)
                /\ accepts_window cascade image (w, h) x y = true)
    /\ (np.shape0 image = 28 -> np.shape1 image = 28 ->
        w = 24 -> h = 24 -> step = 4 ->
        regions = if accepts_window cascade image (24, 24) 0 0
                  then [(0, 0, 24, 24)] else []).
Proof.
  intros Hstep. eexists. split; [now apply sliding_window_positive|].
  split; [intros r; now apply in_sliding_window|].
  intros -> -> -> -> ->.
  change (steps_below (28 - 24) 4) with [0]. cbn [flat_map map filter].
  destruct (accepts_window cascade image (24, 24) 0 0); reflexivity.
Qed.

Lemma sliding_window_origins_witness :
  0 < 4
  /\ exists regions,
       sliding_window (zeros 30 40) no_stages (24, 24) 4 = Py.Ok regions
       /\ (In (12, 4, 24, 24) regions
           <-> exists x y,
                 (12, 4, 24, 24) = (x, y, 24, 24)
                 /\ (0 <= y < np.shape0 (zeros 30 40) - 24 /\ y mod 4 = 0)
                 /\ (0 <= x < np.shape1 (zeros 30 40) - 24 /\ x mod 4 = 0)
                 /\ accepts_window no_stages (zeros 30 40) (24, 24) x y = true).
Proof.
  assert (Hstep : 0 < 4) by lia.
  split; [exact Hstep|].
  destruct (sliding_window_origins (zeros 30 40) no_stages 24 24 4 Hstep)
    as (regions & Hrun & Hin & _).
  exists regions. split; [exact Hrun|]. apply Hin.
Defined.

(** C10, as stated, at a 2x2 image, a 3x3 window and step -1: the image
    is smaller than the window and the scan returns a region. *)
Lemma sliding_window_small_image_negative_step :
  np.shape0 (zeros 2 2) <= 3 /\ np.shape1 (zeros 2 2) <= 3
  /\ sliding_window (zeros 2 2) no_stages (3, 3) (-1) = Py.Ok [(0, 0, 3, 3)]
  /\ sliding_window (zeros 2 2) no_stages (3, 3) (-1) <> Py.Ok [].
Proof. repeat split; vm_compute; congruence. Qed.

(** The same image and window with step 0: the scan raises. *)
Lemma sliding_window_step_zero :
  sliding_window (zeros 2 2) no_stages (3, 3) 0 = Py.Raise Py.ValueError.
Proof. reflexivity. Qed.

(** C10, amended.  With a positive step, for every image whose height
    is at most the window height or whose width is at most the window
    width the scan returns the empty list, the exact fit included. *)
Theorem sliding_window_small_image_empty (image : grid)
    (cascade : HaarCascade.t) (w h step : Z) :
  0 < step ->
  np.shape0 image <= h \/ np.shape1 image <= w ->
  sliding_window image cascade (w, h) step = Py.Ok [].
Proof.
  intros Hstep Hsmall. rewrite sliding_window_positive by exact Hstep.
  apply f_equal. destruct Hsmall as [Hh|Hw].
  - now rewrite (steps_below_empty (np.shape0 image - h)) by lia.
  - apply flat_map_nil. intros y _.
    now rewrite (steps_below_empty (np.shape1 image - w)) by lia.
Qed.

Lemma sliding_window_small_image_empty_witness :
  0 < 4
  /\ (np.shape0 (zeros 24 24) <= 24 \/ np.shape1 (zeros 24 24) <= 24)
  /\ sliding_window (zeros 24 24) no_stages (24, 24) 4 = Py.Ok [].
Proof.
  assert (Hstep : 0 < 4) by lia.
  assert (Hfit : np.shape0 (zeros 24 24) <= 24 \/ np.shape1 (zeros 24 24) <= 24)
    by (left; vm_compute; discriminate).
  split; [exact Hstep|]. split; [exact Hfit|].
  exact (sliding_window_small_image_empty (zeros 24 24) no_stages 24 24 4
           Hstep Hfit).
Defined.

(** ** C6 and C4: the trainers *)

(** C6.  For every feature and every non-empty positive and negative
    sample set, [train_classifier] returns a classifier of the grid
    (the ten thresholds (2k-9)/9, k = 0..9, each with polarity 1 then
    -1) whose training-set accuracy (the positives it classifies 1 plus
    the negatives it classifies 0, over the number of samples) is at
    least that of every other candidate, and strictly greater than that
    of every candidate enumerated before it. *)
Theorem train_classifier_first_best (pos_imgs neg_imgs : list grid)
    (feature : HaarFeature.t) :
  pos_imgs <> [] -> neg_imgs <> [] ->
  exists c,
    train_classifier pos_imgs neg_imgs feature = Py.Ok (Some c)
    /\ (exists before after,
          candidates feature = before ++ c :: after
          /\ (forall c', In c' before ->
                (accuracy pos_imgs neg_imgs c' < accuracy pos_imgs neg_imgs c)%Q)
          /\ (forall c', In c' after ->
                (accuracy pos_imgs neg_imgs c' <= accuracy pos_imgs neg_imgs c)%Q))
    /\ (forall c', In c' (candidates feature) ->
          (accuracy pos_imgs neg_imgs c' <= accuracy pos_imgs neg_imgs c)%Q)
    /\ (forall c',
          In c' (candidates feature)
          <-> exists k p,
                (k < 10)%nat /\ (p = 1 \/ p = -1)
                /\ c' = WeakClassifier.Build feature
                          ((2 * Z.of_nat k - 9) # 9) p).
Proof.
  intros Hpos _.
  destruct (train_classifier_result pos_imgs neg_imgs feature (or_introl Hpos))
    as (c & Hrun & before & after & Heq & Hb & Ha).
  assert (Hb' : forall c', In c' before ->
            (accuracy pos_imgs neg_imgs c' < accuracy pos_imgs neg_imgs c)%Q).
  { intros c' Hin. rewrite <- !loop_accuracy_eq. now apply Hb. }
  assert (Ha' : forall c', In c' after ->
            (accuracy pos_imgs neg_imgs c' <= accuracy pos_imgs neg_imgs c)%Q).
  { intros c' Hin. rewrite <- !loop_accuracy_eq. now apply Ha. }
  exists c. split; [exact Hrun|].
  split; [exists before, after; now repeat split|].
  split; [|intros c'; apply in_candidates].
  intros c' Hin. rewrite Heq in Hin.
  apply in_app_or in Hin as [Hin|[<-|Hin]].
  - apply Qlt_le_weak. now apply Hb'.
  - apply Qle_refl.
  - now apply Ha'.
Qed.

Lemma train_classifier_first_best_witness :
  [sample] <> [] /\ [zeros 4 4] <> []
  /\ exists c,
       train_classifier [sample] [zeros 4 4] full_box = Py.Ok (Some c)
       /\ forall c', In c' (candidates full_box) ->
            (accuracy [sample] [zeros 4 4] c'
             <= accuracy [sample] [zeros 4 4] c)%Q.
Proof.
  assert (Hpos : [sample] <> []) by discriminate.
  assert (Hneg : [zeros 4 4] <> []) by discriminate.
  split; [exact Hpos|]. split; [exact Hneg|].
  destruct (train_classifier_first_best [sample] [zeros 4 4] full_box Hpos Hneg)
    as (c & Hrun & _ & Hmax & _).
  exists c. split; [exact Hrun|exact Hmax].
Defined.

(** C4, as stated, at one positive and three negative samples: the
    classifier that [adaboost_train] selects has a smaller weighted
    score, under the weights the function initialises, than another
    candidate of the grid. *)
Lemma adaboost_train_score_is_not_weighted :
  adaboost_train [row_pair] one_positive three_negatives
  = Py.Ok [Some (WeakClassifier.Build row_pair (1 # 9) (-1))]
  /\ In (WeakClassifier.Build row_pair (-9 # 9) (-1)) (candidates row_pair)
  /\ (weighted_score (uniform_weights 1 ++ uniform_weights 3)
        one_positive three_negatives
        (WeakClassifier.Build row_pair (1 # 9) (-1))
      < weighted_score (uniform_weights 1 ++ uniform_weights 3)
          one_positive three_negatives
          (WeakClassifier.Build row_pair (-9 # 9) (-1)))%Q.
Proof.
  split; [vm_compute; reflexivity|]. split.
  - apply in_candidates. exists 0%nat, (-1).
    split; [lia|]. split; [now right|reflexivity].
  - vm_compute. reflexivity.
Qed.

(** C4, amended.  [adaboost_train] takes no weight vector, and the
    weights it initialises are never read: from any weight vector the
    rounds return the weights unchanged and the same classifiers.  The
    score that selects each (threshold, polarity) pair is the raw count
    of correct classifications (positives classified 1 plus negatives
    classified 0) over the number of samples, and for each feature the
    first candidate of greatest raw score is selected. *)
Theorem adaboost_train_raw_score (features : list HaarFeature.t)
    (pos neg : list grid) :
  pos <> [] \/ neg <> [] ->
  exists cs,
    adaboost_train features pos neg = Py.Ok (map Some cs)
    /\ (forall weights,
          adaboost_rounds weights features pos neg
          = Py.Ok (weights, map Some cs))
    /\ Forall2 (fun f c => first_best (raw_score pos neg) (candidates f) c)
         features cs
    /\ (forall c,
          raw_score pos neg c
          = (Z.of_nat (length (filter
                (fun img => WeakClassifier.predict c img =? 1) pos))
             + Z.of_nat (length (filter
                (fun img => WeakClassifier.predict c img =? 0) neg)))
            # Z.to_pos (Z.of_nat (length pos) + Z.of_nat (length neg))).
Proof.
  intros Hne.
  destruct (adaboost_loop_result pos neg features Hne) as (cs & Hall & Hloop).
  assert (Hrounds : forall weights,
            adaboost_rounds weights features pos neg
            = Py.Ok (weights, map Some cs)).
  { intros weights. unfold adaboost_rounds. now rewrite Hloop. }
  exists cs. split; [|split; [exact Hrounds|split; [exact Hall|]]].
  - unfold adaboost_train. cbv zeta. rewrite Hrounds. reflexivity.
  - intros c. unfold raw_score. now rewrite raw_count.
Qed.

Lemma adaboost_train_raw_score_witness :
  (one_positive <> [] \/ three_negatives <> [])
  /\ exists cs,
       adaboost_train [row_pair] one_positive three_negatives
       = Py.Ok (map Some cs)
       /\ forall weights,
            adaboost_rounds weights [row_pair] one_positive three_negatives
            = Py.Ok (weights, map Some cs).
Proof.
  assert (Hne : one_positive <> [] \/ three_negatives <> [])
    by (left; discriminate).
  split; [exact Hne|].
  destruct (adaboost_train_raw_score [row_pair] one_positive three_negatives Hne)
    as (cs & Hrun & Hrounds & _).
  exists cs. split; [exact Hrun|exact Hrounds].
Defined.

(** ** C5, C8 and C9: stages and the cascade *)

(** C5.  For every cascade and image, [detect] either meets a first
    rejecting stage, returns false there and has called [predict] on the
    classifiers of the stages up to and including that one, in
    declaration order, and on none of a later stage; or every stage
    passes, it returns true and has called [predict] on the classifiers
    of all stages in order. *)
Theorem detect_short_circuits (cascade : HaarCascade.t) (image : grid) :
  (exists before stage after,
      HaarCascade.stages cascade = before ++ stage :: after
      /\ Forall (passes (integral_image image)) before
      /\ rejects (integral_image image) stage
      /\ HaarCascade.detect cascade image
         = (false, calls_of (before ++ [stage])))
  \/ (Forall (passes (integral_image image)) (HaarCascade.stages cascade)
      /\ HaarCascade.detect cascade image
         = (true, calls_of (HaarCascade.stages cascade))).
Proof.
  unfold HaarCascade.detect. apply detect_loop_trace.
Qed.

(** C8.  The cascade with no stage accepts every image, calling no
    classifier, and [detect_faces] with no classifier returns true. *)
Theorem empty_cascade_accepts (image : grid) :
  HaarCascade.detect (HaarCascade.Build []) image = (true, [])
  /\ detect_faces image [] = true.
Proof. split; reflexivity. Qed.

(** C9.  Every prediction of a stage is 0 or 1, so the stage sum is
    non-negative, and a stage whose threshold is at most 0 passes on
    every integral image. *)
Theorem nonpositive_threshold_passes (stage : CascadeStage.t)
    (integral_img : grid) :
  (CascadeStage.threshold stage <= 0)%Q ->
  Forall (fun clf => WeakClassifier.predict clf integral_img = 0
                     \/ WeakClassifier.predict clf integral_img = 1)
    (CascadeStage.classifiers stage)
  /\ 0 <= fst (CascadeStage.sum_predictions 0
                 (CascadeStage.classifiers stage) integral_img)
  /\ fst (CascadeStage.classify stage integral_img) = true.
Proof.
  intros Hthr.
  assert (Hsum : 0 <= sumZ (map (fun clf =>
                    WeakClassifier.predict clf integral_img)
                    (CascadeStage.classifiers stage))).
  { apply sumZ_nonneg, Forall_map, Forall_forall. intros clf _.
    destruct (predict_01 clf integral_img); lia. }
  split; [|split].
  - apply Forall_forall. intros clf _. apply predict_01.
  - rewrite sum_predictions_eq. cbn [fst]. lia.
  - rewrite classify_eq. cbn [fst]. apply Qle_bool_iff.
    eapply Qle_trans; [exact Hthr|].
    unfold Qle. cbn [Qnum Qden inject_Z]. lia.
Qed.

Lemma nonpositive_threshold_passes_witness :
  (0 <= 0)%Q
  /\ fst (CascadeStage.classify
            (CascadeStage.Build
               [WeakClassifier.Build full_box (9 # 9) 1;
                WeakClassifier.Build full_box (9 # 9) (-1)] 0)
            (integral_image sample)) = true.
Proof.
  assert (Hthr : (0 <= 0)%Q) by (unfold Qle; simpl; lia).
  split; [exact Hthr|].
  exact (proj2 (proj2
    (nonpositive_threshold_passes
       (CascadeStage.Build
          [WeakClassifier.Build full_box (9 # 9) 1;
           WeakClassifier.Build full_box (9 # 9) (-1)] 0)
       (integral_image sample) Hthr))).
Defined.

(** ** C7: a box that leaves the integral image *)

(** C7, as stated, at the 4x4 sample and the box of size 4x4 at (2, 2):
    the box exceeds the extent and the call returns 112. *)
Lemma compute_beyond_extent_returns :
  exceeds_extent overhanging_box (integral_image sample) = true
  /\ call_compute overhanging_box (integral_image sample) = Py.Ok 112.
Proof. split; vm_compute; reflexivity. Qed.

(** C7, amended.  For every two-rectangle feature with non-negative
    position and size, also when its rectangle exceeds the extent of
    the integral image, [compute] raises nothing: it returns the sum of
    the entries in the left half of the box minus the sum of those in
    the right half, the cells outside the extent counting as 0. *)
Theorem compute_clips_to_extent (x y w h : Z) (int_img : grid) :
  0 <= x -> 0 <= y -> 0 <= w -> 0 <= h ->
  call_compute (HaarFeature.Build "two-rect" (x, y) w h) int_img
  = Py.Ok (rect_sum int_img x y (x + w / 2) (y + h)
           - rect_sum int_img (x + w / 2) y (x + w) (y + h)).
Proof.
  intros Hx Hy Hw Hh. unfold call_compute.
  now rewrite compute_two_rect.
Qed.

Lemma compute_clips_to_extent_witness :
  0 <= 2 /\ 0 <= 4
  /\ exceeds_extent overhanging_box (integral_image sample) = true
  /\ call_compute overhanging_box (integral_image sample)
     = Py.Ok (rect_sum (integral_image sample) 2 2 (2 + 4 / 2) (2 + 4)
              - rect_sum (integral_image sample) (2 + 4 / 2) 2 (2 + 4) (2 + 4)).
Proof.
  assert (H2 : 0 <= 2) by lia.
  assert (H4 : 0 <= 4) by lia.
  split; [exact H2|]. split; [exact H4|]. split; [reflexivity|].
  exact (compute_clips_to_extent 2 2 4 4 (integral_image sample) H2 H2 H4 H4).
Defined.

(** * Further properties of the code *)

(** ** The integral image *)

Section IntegralImageMore.

Lemma map_cumsum_rows_from (rows : grid) (acc : list Z) :
  Forall (fun r => length r = length acc) rows ->
  map np.cumsum (np.cumsum_rows_from acc rows)
  = np.cumsum_rows_from (np.cumsum acc) (map np.cumsum rows).
Proof.
  revert acc. induction rows as [|r rows IH]; intros acc Hlen.
  - reflexivity.
  - inversion Hlen as [|? ? Hr Hrows]; subst.
    assert (Hadd : np.cumsum (np.add_rows acc r)
                   = np.add_rows (np.cumsum acc) (np.cumsum r)).
    { unfold np.cumsum. change 0 with (0 + 0) at 1.
      apply cumsum_from_add_rows. congruence. }
    cbn [np.cumsum_rows_from map]. rewrite Hadd. f_equal.
    rewrite <- Hadd. apply IH.
    rewrite length_add_rows by congruence.
    exact Hrows.
Qed.

Lemma sumZ_map_le {A : Type} (f g : A -> Z) (l : list A) :
  (forall a, In a l -> f a <= g a) -> sumZ (map f l) <= sumZ (map g l).
Proof.
  induction l as [|a l IH]; intros H; cbn [map].
  - lia.
  - rewrite !sumZ_cons.
    assert (f a <= g a) by (apply H; now left).
    assert (sumZ (map f l) <= sumZ (map g l))
      by (apply IH; intros b Hb; apply H; now right).
    lia.
Qed.

Lemma nonneg_cell (img : grid) (i j : nat) :
  nonneg_grid img -> 0 <= nth j (nth i img []) 0.
Proof.
  intros Hnn.
  assert (Hrow : Forall (fun v => 0 <= v) (nth i img [])).
  { destruct (Nat.lt_ge_cases i (length img)) as [Hi|Hi].
    - eapply Forall_forall in Hnn; [exact Hnn|]. now apply nth_In.
    - rewrite nth_overflow by exact Hi. constructor. }
  destruct (Nat.lt_ge_cases j (length (nth i img []))) as [Hj|Hj].
  - eapply Forall_forall in Hrow; [exact Hrow|]. now apply nth_In.
  - rewrite nth_overflow by exact Hj. lia.
Qed.

Lemma row_prefix_nonneg (img : grid) (i b : nat) :
  nonneg_grid img -> 0 <= row_prefix (nth i img []) b.
Proof.
  intros Hnn. induction b as [|b IH]; [rewrite row_prefix_0; lia|].
  rewrite row_prefix_S. pose proof (nonneg_cell img i b Hnn). lia.
Qed.

Lemma prefix_sum_nonneg (img : grid) (a b : nat) :
  nonneg_grid img -> 0 <= prefix_sum img a b.
Proof.
  intros Hnn. induction a as [|a IH]; [rewrite prefix_sum_0_rows; lia|].
  rewrite prefix_sum_S. pose proof (row_prefix_nonneg img a b Hnn). lia.
Qed.

Lemma prefix_sum_le_rows (img : grid) (a b : nat) :
  nonneg_grid img -> prefix_sum img a b <= prefix_sum img (S a) b.
Proof.
  intros Hnn. rewrite prefix_sum_S.
  pose proof (row_prefix_nonneg img a b Hnn). lia.
Qed.

Lemma prefix_sum_le_cols (img : grid) (a b : nat) :
  nonneg_grid img -> prefix_sum img a b <= prefix_sum img a (S b).
Proof.
  intros Hnn. unfold prefix_sum. apply sumZ_map_le. intros i _.
  rewrite row_prefix_S. pose proof (nonneg_cell img i b Hnn). lia.
Qed.

Lemma row_prefix_le_sum (r : list Z) (b : nat) :
  Forall (fun v => 0 <= v) r -> row_prefix r b <= sumZ r.
Proof.
  intros Hr. revert b. induction Hr as [|a r Ha Hr IH]; intros b.
  - rewrite row_prefix_nil, sumZ_nil. lia.
  - rewrite sumZ_cons. destruct b as [|b].
    + rewrite row_prefix_0. pose proof (sumZ_nonneg r Hr). lia.
    + rewrite row_prefix_cons. specialize (IH b). lia.
Qed.

Lemma np_sum_nonneg (img : grid) : nonneg_grid img -> 0 <= np.sum img.
Proof.
  intros Hnn. unfold np.sum. apply sumZ_nonneg, Forall_map.
  eapply Forall_impl; [|exact Hnn]. intros r Hr. now apply sumZ_nonneg.
Qed.

(** No prefix sum of a non-negative grid exceeds the sum of all its
    cells. *)
Lemma prefix_sum_le_total (img : grid) (a b : nat) :
  nonneg_grid img -> prefix_sum img a b <= np.sum img.
Proof.
  intros Hnn. revert a. induction Hnn as [|r img Hr Hnn IH]; intros a.
  - unfold prefix_sum. rewrite sumZ_map_zero; [reflexivity|].
    intros i _. destruct i; apply row_prefix_nil.
  - assert (Htot : np.sum (r :: img) = sumZ r + np.sum img)
      by (unfold np.sum; cbn [map]; apply sumZ_cons).
    rewrite Htot. destruct a as [|a].
    + rewrite prefix_sum_0_rows.
      pose proof (sumZ_nonneg r Hr). pose proof (np_sum_nonneg img Hnn). lia.
    + rewrite prefix_sum_cons.
      pose proof (row_prefix_le_sum r b Hr). specialize (IH a). lia.
Qed.

Lemma grid_ext (w : nat) (g1 g2 : grid) :
  length g1 = length g2 -> rectangular w g1 -> rectangular w g2 ->
  (forall y x, (y < length g1)%nat -> (x < w)%nat ->
     nth x (nth y g1 []) 0 = nth x (nth y g2 []) 0) ->
  g1 = g2.
Proof.
  intros Hlen H1 H2 Hcells.
  apply (nth_ext g1 g2 [] []); [exact Hlen|].
  intros y Hy.
  assert (L1 : length (nth y g1 []) = w).
  { eapply Forall_forall in H1; [exact H1|]. now apply nth_In. }
  assert (L2 : length (nth y g2 []) = w).
  { eapply Forall_forall in H2; [exact H2|]. apply nth_In. lia. }
  apply (nth_ext _ _ 0 0); [congruence|].
  intros x Hx. apply Hcells; [exact Hy|lia].
Qed.

End IntegralImageMore.

(** X1.  On a rectangular grid the two running sums commute: summing
    along the rows first and down the columns second builds the same
    integral image. *)
Theorem integral_image_axis_order (w : nat) (img : grid) :
  rectangular w img ->
  integral_image img = np.cumsum_axis0 (np.cumsum_axis1 img).
Proof.
  intros Hrect. unfold integral_image, np.cumsum_axis0, np.cumsum_axis1.
  destruct img as [|r rows]; [reflexivity|].
  inversion Hrect as [|? ? Hr Hrows]; subst.
  cbn [map]. f_equal. apply map_cumsum_rows_from.
  exact Hrows.
Qed.

Lemma integral_image_axis_order_witness :
  rectangular 4 sample
  /\ integral_image sample = np.cumsum_axis0 (np.cumsum_axis1 sample).
Proof.
  assert (Hrect : rectangular 4 sample) by (repeat constructor).
  split; [exact Hrect|].
  exact (integral_image_axis_order 4 sample Hrect).
Defined.

(** X2.  On a rectangular grid of non-negative intensities whose sum
    is below 2^63, so that no 64-bit running sum wraps, every entry of
    the integral image lies between 0 and the sum of all pixels, and
    the entries do not decrease to the right along a row nor down a
    column. *)
Theorem integral_image_monotone (w : nat) (img : grid) (x y : Z) :
  rectangular w img -> nonneg_grid img -> np.sum img < 2 ^ 63 ->
  0 <= x < Z.of_nat w -> 0 <= y < Z.of_nat (length img) ->
  (0 <= px (integral_image img) x y <= np.sum img
   /\ px (integral_image img) x y < 2 ^ 63)
  /\ (x + 1 < Z.of_nat w ->
      px (integral_image img) x y <= px (integral_image img) (x + 1) y)
  /\ (y + 1 < Z.of_nat (length img) ->
      px (integral_image img) x y <= px (integral_image img) x (y + 1)).
Proof.
  intros Hrect Hnn Hsum Hx Hy.
  assert (Hcell : forall i j, (i < length img)%nat -> (j < w)%nat ->
            px (integral_image img) (Z.of_nat j) (Z.of_nat i)
            = prefix_sum img (S i) (S j)).
  { intros i j Hi Hj. rewrite px_nat. now apply (integral_image_cell w). }
  rewrite <- (Z2Nat.id x), <- (Z2Nat.id y) by lia.
  rewrite Hcell by lia.
  pose proof (prefix_sum_nonneg img (S (Z.to_nat y)) (S (Z.to_nat x)) Hnn).
  pose proof (prefix_sum_le_total img (S (Z.to_nat y)) (S (Z.to_nat x)) Hnn).
  split; [lia|]. split.
  - intros Hx1.
    replace (Z.of_nat (Z.to_nat x) + 1) with (Z.of_nat (S (Z.to_nat x))) by lia.
    rewrite Hcell by lia. now apply prefix_sum_le_cols.
  - intros Hy1.
    replace (Z.of_nat (Z.to_nat y) + 1) with (Z.of_nat (S (Z.to_nat y))) by lia.
    rewrite Hcell by lia. now apply prefix_sum_le_rows.
Qed.

Lemma integral_image_monotone_witness :
  rectangular 4 sample /\ nonneg_grid sample /\ np.sum sample < 2 ^ 63
  /\ 0 <= px (integral_image sample) 1 2 <= np.sum sample
  /\ px (integral_image sample) 1 2 <= px (integral_image sample) 2 2
  /\ px (integral_image sample) 1 2 <= px (integral_image sample) 1 3.
Proof.
  assert (Hrect : rectangular 4 sample) by (repeat constructor).
  assert (Hnn : nonneg_grid sample)
    by (repeat constructor; discriminate).
  assert (Hsum : np.sum sample < 2 ^ 63) by (vm_compute; reflexivity).
  assert (Hx : 0 <= 1 < Z.of_nat 4) by (simpl; lia).
  assert (Hy : 0 <= 2 < Z.of_nat (length sample)) by (simpl; lia).
  split; [exact Hrect|]. split; [exact Hnn|]. split; [exact Hsum|].
  destruct (integral_image_monotone 4 sample 1 2 Hrect Hnn Hsum Hx Hy)
    as ((Hrange & _) & Hright & Hdown).
  split; [exact Hrange|].
  split; [apply Hright; simpl; lia|apply Hdown; simpl; lia].
Defined.

(** X3.  The integral image loses nothing: two rectangular grids of the
    same width with the same integral image are the same grid. *)
Theorem integral_image_injective (w : nat) (img1 img2 : grid) :
  rectangular w img1 -> rectangular w img2 ->
  integral_image img1 = integral_image img2 ->
  img1 = img2.
Proof.
  intros H1 H2 Heq.
  assert (Hlen : length img1 = length img2).
  { rewrite <- (integral_image_length img1), <- (integral_image_length img2).
    now rewrite Heq. }
  apply (grid_ext w); auto.
  intros y x Hy Hx.
  pose proof (integral_image_recurrence w img1 x y H1 Hx Hy) as R1.
  pose proof (integral_image_recurrence w img2 x y H2 Hx) as R2.
  rewrite <- Hlen in R2. specialize (R2 Hy).
  rewrite Heq in R1. rewrite !px_nat in R1, R2.
  rewrite <- !px_nat in R1, R2.
  rewrite <- !(px_nat img1), <- !(px_nat img2). lia.
Qed.

Lemma integral_image_injective_witness :
  rectangular 2 [[1; 2]; [3; 4]]
  /\ integral_image [[1; 2]; [3; 4]] = integral_image [[1; 2]; [3; 4]]
  /\ [[1; 2]; [3; 4]] = [[1; 2]; [3; 4]].
Proof.
  assert (Hrect : rectangular 2 [[1; 2]; [3; 4]]) by (repeat constructor).
  assert (Heq : integral_image [[1; 2]; [3; 4]]
                = integral_image [[1; 2]; [3; 4]]) by reflexivity.
  split; [exact Hrect|]. split; [exact Heq|].
  exact (integral_image_injective 2 _ _ Hrect Hrect Heq).
Defined.

(** ** The two-rectangle feature *)

Section ComputeMore.

Lemma zrange_bounds (a b k : Z) : In k (zrange a b) -> a <= k < b.
Proof.
  unfold zrange. intros H. apply in_map_iff in H as (j & <- & Hj).
  apply in_seq in Hj. lia.
Qed.

Lemma px_outside (w : nat) (g : grid) (x y : Z) :
  rectangular w g ->
  Z.of_nat w <= x \/ Z.of_nat (length g) <= y ->
  px g x y = 0.
Proof.
  intros Hrect Hout. unfold px.
  destruct ((x <? 0) || (y <? 0)) eqn:E; [reflexivity|].
  apply orb_false_iff in E as [Ex Ey].
  apply Z.ltb_ge in Ex. apply Z.ltb_ge in Ey.
  destruct (Nat.lt_ge_cases (Z.to_nat y) (length g)) as [Hy|Hy].
  - assert (Hlen : length (nth (Z.to_nat y) g []) = w).
    { eapply Forall_forall in Hrect; [exact Hrect|]. now apply nth_In. }
    apply nth_overflow. lia.
  - rewrite (nth_overflow g) by exact Hy. now destruct (Z.to_nat x).
Qed.

(** An entry of the integral image is the sum of the pixels above and
    to the left of it, itself included. *)
Lemma px_integral_is_rect_sum (w : nat) (img : grid) (x y : Z) :
  rectangular w img ->
  0 <= x < Z.of_nat w -> 0 <= y < Z.of_nat (length img) ->
  px (integral_image img) x y = rect_sum img 0 0 (x + 1) (y + 1).
Proof.
  intros Hrect Hx Hy.
  rewrite <- (Z2Nat.id x), <- (Z2Nat.id y) by lia.
  rewrite px_nat, (integral_image_cell w) by (auto; lia).
  replace (Z.of_nat (Z.to_nat x) + 1) with (Z.of_nat (S (Z.to_nat x))) by lia.
  replace (Z.of_nat (Z.to_nat y) + 1) with (Z.of_nat (S (Z.to_nat y))) by lia.
  change 0 with (Z.of_nat 0).
  rewrite rect_sum_prefix by lia.
  rewrite !prefix_sum_0_rows, !prefix_sum_0_cols. lia.
Qed.

Lemma half_le (w : Z) : 0 <= w -> 0 <= w / 2 <= w.
Proof.
  intros Hw. split; [apply Z.div_pos; lia|].
  apply Z.div_le_upper_bound; lia.
Qed.

End ComputeMore.

(** X4.  What [compute] returns on the integral image of a rectangular
    grid, for a box inside it: the sum over the cells of the left half
    of the pixel sums above and to the left of each cell, minus the
    same sum over the right half.  The response therefore depends on
    the pixels above and to the left of the box. *)
Theorem compute_on_integral_image (w : nat) (img : grid) (x y bw bh : Z) :
  rectangular w img ->
  0 <= x -> 0 <= y -> 0 <= bw -> 0 <= bh ->
  x + bw <= Z.of_nat w -> y + bh <= Z.of_nat (length img) ->
  HaarFeature.compute (HaarFeature.Build "two-rect" (x, y) bw bh)
    (integral_image img)
  = sumZ (map (fun i =>
            sumZ (map (fun j => rect_sum img 0 0 (j + 1) (i + 1))
                      (zrange x (x + bw / 2))))
            (zrange y (y + bh)))
    - sumZ (map (fun i =>
              sumZ (map (fun j => rect_sum img 0 0 (j + 1) (i + 1))
                        (zrange (x + bw / 2) (x + bw))))
              (zrange y (y + bh))).
Proof.
  intros Hrect Hx Hy Hbw Hbh Hxw Hyh.
  pose proof (half_le bw Hbw) as Hhalf.
  rewrite compute_two_rect by assumption. unfold rect_sum at 1 2.
  f_equal; apply sumZ_map_ext; intros i Hi; apply zrange_bounds in Hi;
    apply sumZ_map_ext; intros j Hj; apply zrange_bounds in Hj;
    apply (px_integral_is_rect_sum w); auto; lia.
Qed.

Lemma compute_on_integral_image_witness :
  rectangular 4 sample
  /\ 0 <= 1 /\ 0 <= 2 /\ 1 + 2 <= Z.of_nat 4 /\ 1 + 2 <= Z.of_nat (length sample)
  /\ HaarFeature.compute (HaarFeature.Build "two-rect" (1, 1) 2 2)
       (integral_image sample)
     = sumZ (map (fun i =>
               sumZ (map (fun j => rect_sum sample 0 0 (j + 1) (i + 1))
                         (zrange 1 (1 + 2 / 2))))
               (zrange 1 (1 + 2)))
       - sumZ (map (fun i =>
                 sumZ (map (fun j => rect_sum sample 0 0 (j + 1) (i + 1))
                           (zrange (1 + 2 / 2) (1 + 2))))
                 (zrange 1 (1 + 2))).
Proof.
  assert (Hrect : rectangular 4 sample) by (repeat constructor).
  assert (H1 : 0 <= 1) by lia.
  assert (H2 : 0 <= 2) by lia.
  assert (Hx : 1 + 2 <= Z.of_nat 4) by (simpl; lia).
  assert (Hy : 1 + 2 <= Z.of_nat (length sample)) by (simpl; lia).
  split; [exact Hrect|]. split; [exact H1|]. split; [exact H2|].
  split; [exact Hx|]. split; [exact Hy|].
  exact (compute_on_integral_image 4 sample 1 1 2 2 Hrect H1 H1 H2 H2 Hx Hy).
Defined.

(** X5.  A two-rectangle box with non-negative position and size that
    starts at or beyond the right or the bottom edge of a rectangular
    grid has response 0: both slices are empty. *)
Theorem compute_box_outside (w : nat) (g : grid) (x y bw bh : Z) :
  rectangular w g ->
  0 <= x -> 0 <= y -> 0 <= bw -> 0 <= bh ->
  Z.of_nat w <= x \/ Z.of_nat (length g) <= y ->
  HaarFeature.compute (HaarFeature.Build "two-rect" (x, y) bw bh) g = 0.
Proof.
  intros Hrect Hx Hy Hbw Hbh Hout.
  pose proof (half_le bw Hbw) as Hhalf.
  rewrite compute_two_rect by assumption. unfold rect_sum.
  rewrite !sumZ_map_zero; [reflexivity| |];
    intros i Hi; apply zrange_bounds in Hi;
    apply sumZ_map_zero; intros j Hj; apply zrange_bounds in Hj;
    apply (px_outside w); auto; lia.
Qed.

Lemma compute_box_outside_witness :
  rectangular 4 sample /\ 0 <= 4 /\ 0 <= 0 /\ 0 <= 2
  /\ (Z.of_nat 4 <= 4 \/ Z.of_nat (length sample) <= 0)
  /\ HaarFeature.compute (HaarFeature.Build "two-rect" (4, 0) 2 2) sample = 0.
Proof.
  assert (Hrect : rectangular 4 sample) by (repeat constructor).
  assert (H4 : 0 <= 4) by lia.
  assert (H0 : 0 <= 0) by lia.
  assert (H2 : 0 <= 2) by lia.
  assert (Hout : Z.of_nat 4 <= 4 \/ Z.of_nat (length sample) <= 0)
    by (left; simpl; lia).
  split; [exact Hrect|]. split; [exact H4|]. split; [exact H0|].
  split; [exact H2|]. split; [exact Hout|].
  exact (compute_box_outside 4 sample 4 0 2 2 Hrect H4 H0 H2 H2 Hout).
Defined.



(** ** The weak classifier *)

Section PredictMore.

Lemma scaled_compare_pos (p v : Z) (t : Q) :
  0 < p ->
  (inject_Z (p * v) < inject_Z p * t)%Q <-> (inject_Z v < t)%Q.
Proof.
  intros Hp. destruct t as [tn td].
  unfold Qlt, inject_Z, Qmult. cbn [Qnum Qden].
  rewrite Pos.mul_1_l. nia.
Qed.

Lemma scaled_compare_neg (p v : Z) (t : Q) :
  p < 0 ->
  (inject_Z (p * v) < inject_Z p * t)%Q <-> (t < inject_Z v)%Q.
Proof.
  intros Hp. destruct t as [tn td].
  unfold Qlt, inject_Z, Qmult. cbn [Qnum Qden].
  rewrite Pos.mul_1_l. nia.
Qed.

Lemma predict_0_iff (c : WeakClassifier.t) (int_img : grid) :
  WeakClassifier.predict c int_img = 0
  <-> WeakClassifier.predict c int_img <> 1.
Proof. destruct (predict_01 c int_img) as [E|E]; rewrite E; split; lia. Qed.

End PredictMore.

(** X7.  Polarity orients the comparison.  For a feature value of
    magnitude at most 2^53, which the code converts to a double without
    rounding, the classifier of polarity 1 predicts 1 exactly when the
    value is below its threshold and the one of polarity -1 exactly
    when the value is above it; the one of polarity 0 predicts 0. *)
Theorem predict_polarity (f : HaarFeature.t) (t : Q) (int_img : grid) :
  - exact_double_bound <= HaarFeature.compute f int_img <= exact_double_bound ->
  (WeakClassifier.predict (WeakClassifier.Build f t 1) int_img = 1
   <-> (inject_Z (HaarFeature.compute f int_img) < t)%Q)
  /\ (WeakClassifier.predict (WeakClassifier.Build f t (-1)) int_img = 1
      <-> (t < inject_Z (HaarFeature.compute f int_img))%Q)
  /\ WeakClassifier.predict (WeakClassifier.Build f t 0) int_img = 0.
Proof.
  intros _. split; [|split].
  - rewrite predict_1_iff. apply scaled_compare_pos. lia.
  - rewrite predict_1_iff. apply scaled_compare_neg. lia.
  - apply predict_0_iff. rewrite predict_1_iff.
    unfold Qlt, inject_Z, Qmult. destruct t as [tn td].
    cbn [Qnum Qden]. lia.
Qed.

Lemma predict_polarity_witness :
  - exact_double_bound
    <= HaarFeature.compute full_box (integral_image sample)
    <= exact_double_bound
  /\ WeakClassifier.predict (WeakClassifier.Build full_box (1 # 2) 1)
       (integral_image sample) = 1
  /\ WeakClassifier.predict (WeakClassifier.Build full_box (1 # 2) (-1))
       (integral_image sample) <> 1
  /\ WeakClassifier.predict (WeakClassifier.Build full_box (1 # 2) 0)
       (integral_image sample) = 0.
Proof.
  assert (Hb : - exact_double_bound
               <= HaarFeature.compute full_box (integral_image sample)
               <= exact_double_bound) by (vm_compute; split; discriminate).
  split; [exact Hb|].
  destruct (predict_polarity full_box (1 # 2) (integral_image sample) Hb)
    as (Hpos & Hneg & Hzero).
  split; [apply Hpos; vm_compute; reflexivity|].
  split; [|exact Hzero].
  intros E. apply Hneg in E. vm_compute in E. discriminate E.
Defined.

(** X8.  For a feature value of magnitude at most 2^53, the classifiers
    of polarity 1 and -1 with the same feature and threshold never both
    predict 1, and they both predict 0 exactly when the value equals
    the threshold. *)
Theorem predict_both_polarities (f : HaarFeature.t) (t : Q)
    (int_img : grid) :
  - exact_double_bound <= HaarFeature.compute f int_img <= exact_double_bound ->
  WeakClassifier.predict (WeakClassifier.Build f t 1) int_img
  + WeakClassifier.predict (WeakClassifier.Build f t (-1)) int_img
  = if Qeq_bool (inject_Z (HaarFeature.compute f int_img)) t then 0 else 1.
Proof.
  intros _.
  set (v := HaarFeature.compute f int_img).
  assert (H1 : WeakClassifier.predict (WeakClassifier.Build f t 1) int_img = 1
               <-> (inject_Z v < t)%Q)
    by (rewrite predict_1_iff; apply scaled_compare_pos; lia).
  assert (H2 : WeakClassifier.predict (WeakClassifier.Build f t (-1)) int_img = 1
               <-> (t < inject_Z v)%Q)
    by (rewrite predict_1_iff; apply scaled_compare_neg; lia).
  destruct (Qeq_bool (inject_Z v) t) eqn:E.
  - apply Qeq_bool_iff in E.
    destruct (predict_01 (WeakClassifier.Build f t 1) int_img) as [E1|E1];
      destruct (predict_01 (WeakClassifier.Build f t (-1)) int_img) as [E2|E2];
      rewrite E1, E2; try reflexivity; exfalso.
    + apply H2 in E2. rewrite E in E2. exact (Qlt_irrefl _ E2).
    + apply H1 in E1. rewrite E in E1. exact (Qlt_irrefl _ E1).
    + apply H1 in E1. rewrite E in E1. exact (Qlt_irrefl _ E1).
  - apply Qeq_bool_neq in E.
    destruct (predict_01 (WeakClassifier.Build f t 1) int_img) as [E1|E1];
      destruct (predict_01 (WeakClassifier.Build f t (-1)) int_img) as [E2|E2];
      rewrite E1, E2; try reflexivity; exfalso.
    + destruct (Q_dec (inject_Z v) t) as [[Hlt|Hgt]|Heq].
      * apply H1 in Hlt. lia.
      * apply H2 in Hgt. lia.
      * now apply E.
    + apply H1 in E1. apply H2 in E2.
      exact (Qlt_irrefl _ (Qlt_trans _ _ _ E1 E2)).
Qed.

Lemma predict_both_polarities_witness :
  - exact_double_bound
    <= HaarFeature.compute full_box (integral_image sample)
    <= exact_double_bound
  /\ WeakClassifier.predict (WeakClassifier.Build full_box (-94 # 1) 1)
       (integral_image sample)
     + WeakClassifier.predict (WeakClassifier.Build full_box (-94 # 1) (-1))
         (integral_image sample)
     = 0.
Proof.
  assert (Hb : - exact_double_bound
               <= HaarFeature.compute full_box (integral_image sample)
               <= exact_double_bound) by (vm_compute; split; discriminate).
  split; [exact Hb|].
  exact (predict_both_polarities full_box (-94 # 1) (integral_image sample) Hb).
Defined.

(** X9.  A feature of any type other than "two-rect" has response 0 on
    every grid, so a classifier built on it predicts the same on all
    images. *)
Theorem stub_feature_ignores_image (f : HaarFeature.t) :
  HaarFeature.feature_type f <> "two-rect"%string ->
  forall (t : Q) (p : Z) (img img' : grid),
    HaarFeature.compute f img = 0
    /\ WeakClassifier.predict (WeakClassifier.Build f t p) img
       = WeakClassifier.predict (WeakClassifier.Build f t p) img'.
Proof.
  intros Hty t p img img'.
  assert (Hzero : forall g, HaarFeature.compute f g = 0).
  { intros g. unfold HaarFeature.compute.
    destruct (HaarFeature.position f) as [x y].
    apply String.eqb_neq in Hty. now rewrite Hty. }
  split; [apply Hzero|].
  unfold WeakClassifier.predict. cbn [WeakClassifier.feature].
  now rewrite !Hzero.
Qed.

Lemma stub_feature_ignores_image_witness :
  HaarFeature.feature_type (HaarFeature.Build "three-rect" (0, 0) 4 4)
  <> "two-rect"%string
  /\ WeakClassifier.predict
       (WeakClassifier.Build (HaarFeature.Build "three-rect" (0, 0) 4 4)
          (1 # 9) 1) sample
     = WeakClassifier.predict
         (WeakClassifier.Build (HaarFeature.Build "three-rect" (0, 0) 4 4)
            (1 # 9) 1) (zeros 4 4).
Proof.
  assert (Hty : HaarFeature.feature_type
                  (HaarFeature.Build "three-rect" (0, 0) 4 4)
                <> "two-rect"%string) by discriminate.
  split; [exact Hty|].
  exact (proj2 (stub_feature_ignores_image _ Hty (1 # 9) 1 sample (zeros 4 4))).
Defined.

(** ** Stages, the cascade and the simple detector *)

Section StagesMore.

Variable integral_img : grid.

Lemma votes_count (clfs : list WeakClassifier.t) :
  sumZ (map (fun clf => WeakClassifier.predict clf integral_img) clfs)
  = Z.of_nat (length (filter
      (fun clf => WeakClassifier.predict clf integral_img =? 1) clfs)).
Proof.
  induction clfs as [|clf clfs IH]; [reflexivity|].
  cbn [map filter]. rewrite sumZ_cons, IH.
  destruct (predict_01 clf integral_img) as [E|E]; rewrite E;
    cbn [Z.eqb Pos.eqb length]; lia.
Qed.

Lemma length_filter_le {A : Type} (P : A -> bool) (l : list A) :
  (length (filter P l) <= length l)%nat.
Proof.
  induction l as [|a l IH]; cbn [filter length]; [lia|].
  destruct (P a); cbn [length]; lia.
Qed.

Lemma length_filter_all {A : Type} (P : A -> bool) (l : list A) :
  length (filter P l) = length l <-> forallb P l = true.
Proof.
  induction l as [|a l IH]; cbn [filter length forallb]; [tauto|].
  pose proof (length_filter_le P l).
  destruct (P a); cbn [length andb].
  - rewrite <- IH. lia.
  - split; [lia|discriminate].
Qed.

Lemma detect_faces_loop_forallb (clfs : list WeakClassifier.t) :
  detect_faces_loop integral_img clfs
  = forallb (fun clf => WeakClassifier.predict clf integral_img =? 1) clfs.
Proof.
  induction clfs as [|clf clfs IH]; [reflexivity|].
  cbn [detect_faces_loop forallb]. rewrite IH.
  destruct (predict_01 clf integral_img) as [E|E]; rewrite E; reflexivity.
Qed.

Lemma detect_loop_forallb (stages : list CascadeStage.t) :
  fst (HaarCascade.detect_loop stages integral_img)
  = forallb (fun stage => fst (CascadeStage.classify stage integral_img))
      stages.
Proof.
  induction stages as [|stage rest IH]; [reflexivity|].
  cbn [forallb].
  destruct (passes_or_rejects integral_img stage) as [Hp|Hr].
  - rewrite (detect_loop_pass integral_img stage rest Hp). cbn [fst].
    unfold passes in Hp. now rewrite Hp, IH.
  - rewrite (detect_loop_reject integral_img stage rest Hr). cbn [fst].
    unfold rejects in Hr. now rewrite Hr.
Qed.

Lemma detect_loop_app (a b : list CascadeStage.t) :
  HaarCascade.detect_loop (a ++ b) integral_img
  = (fst (HaarCascade.detect_loop a integral_img)
     && fst (HaarCascade.detect_loop b integral_img),
     snd (HaarCascade.detect_loop a integral_img)
     ++ (if fst (HaarCascade.detect_loop a integral_img)
         then snd (HaarCascade.detect_loop b integral_img) else [])).
Proof.
  induction a as [|stage a IH].
  - cbn. now destruct (HaarCascade.detect_loop b integral_img).
  - cbn [app].
    destruct (passes_or_rejects integral_img stage) as [Hp|Hr].
    + rewrite !(detect_loop_pass integral_img stage _ Hp), IH.
      cbn [fst snd]. now rewrite app_assoc.
    + rewrite !(detect_loop_reject integral_img stage _ Hr).
      cbn [fst snd andb]. now rewrite app_nil_r.
Qed.

Lemma forallb_permutation {A : Type} (P : A -> bool) (l l' : list A) :
  Permutation l l' -> forallb P l = forallb P l'.
Proof.
  induction 1 as [| a l l' _ IH | a b l | l l' l'' _ IH1 _ IH2];
    cbn [forallb].
  - reflexivity.
  - now rewrite IH.
  - now destruct (P a), (P b).
  - now rewrite IH1.
Qed.

Lemma forallb_map {A B : Type} (P : B -> bool) (g : A -> B) (l : list A) :
  forallb P (map g l) = forallb (fun a => P (g a)) l.
Proof.
  induction l as [|a l IH]; cbn [map forallb]; [reflexivity|].
  now rewrite IH.
Qed.

Lemma singleton_stage (clf : WeakClassifier.t) :
  fst (CascadeStage.classify (CascadeStage.Build [clf] 1) integral_img)
  = (WeakClassifier.predict clf integral_img =? 1).
Proof.
  rewrite classify_eq. cbn [fst CascadeStage.threshold
    CascadeStage.classifiers map].
  rewrite sumZ_cons, sumZ_nil.
  destruct (predict_01 clf integral_img) as [E|E]; rewrite E; reflexivity.
Qed.

End StagesMore.

(** X10.  The stage sum is a vote count: it equals the number of
    classifiers of the stage that predict 1, and the stage passes
    exactly when that number reaches the threshold. *)
Theorem classify_counts_votes (stage : CascadeStage.t) (integral_img : grid) :
  fst (CascadeStage.sum_predictions 0 (CascadeStage.classifiers stage)
         integral_img)
  = Z.of_nat (length (filter
      (fun clf => WeakClassifier.predict clf integral_img =? 1)
      (CascadeStage.classifiers stage)))
  /\ (fst (CascadeStage.classify stage integral_img) = true
      <-> (CascadeStage.threshold stage
           <= inject_Z (Z.of_nat (length (filter
                (fun clf => WeakClassifier.predict clf integral_img =? 1)
                (CascadeStage.classifiers stage)))))%Q).
Proof.
  split.
  - rewrite sum_predictions_eq. cbn [fst]. now rewrite votes_count.
  - rewrite classify_eq. cbn [fst]. rewrite votes_count.
    apply Qle_bool_iff.
Qed.

(** X11.  A stage whose threshold exceeds its number of classifiers
    rejects every integral image. *)
Theorem threshold_above_count_rejects (stage : CascadeStage.t)
    (integral_img : grid) :
  (inject_Z (Z.of_nat (length (CascadeStage.classifiers stage)))
   < CascadeStage.threshold stage)%Q ->
  fst (CascadeStage.classify stage integral_img) = false.
Proof.
  intros Hthr. rewrite classify_eq. cbn [fst]. rewrite votes_count.
  destruct (Qle_bool _ _) eqn:E; [|reflexivity].
  apply Qle_bool_iff in E. exfalso.
  apply (Qlt_not_le _ _ Hthr). eapply Qle_trans; [exact E|].
  rewrite <- Zle_Qle. apply inj_le. apply length_filter_le.
Qed.

Lemma threshold_above_count_rejects_witness :
  (inject_Z (Z.of_nat (length (CascadeStage.classifiers strict_stage)))
   < CascadeStage.threshold strict_stage)%Q
  /\ fst (CascadeStage.classify strict_stage (integral_image sample)) = false.
Proof.
  assert (Hthr : (inject_Z (Z.of_nat
                    (length (CascadeStage.classifiers strict_stage)))
                  < CascadeStage.threshold strict_stage)%Q)
    by (unfold Qlt; simpl; lia).
  split; [exact Hthr|].
  exact (threshold_above_count_rejects strict_stage (integral_image sample)
           Hthr).
Defined.

(** X12.  [detect_faces] accepts an image exactly when every classifier
    of the list predicts 1 on its integral image. *)
Theorem detect_faces_unanimous (img : grid)
    (classifiers : list WeakClassifier.t) :
  detect_faces img classifiers = true
  <-> Forall (fun clf => WeakClassifier.predict clf (integral_image img) = 1)
        classifiers.
Proof.
  unfold detect_faces. cbv zeta. rewrite detect_faces_loop_forallb.
  rewrite forallb_forall, Forall_forall.
  split; intros H clf Hin.
  - apply Z.eqb_eq. now apply H.
  - apply Z.eqb_eq. now apply H.
Qed.

(** X13.  The simple detector is a special cascade: [detect_faces]
    returns what the full cascade returns when each classifier is a
    stage of its own with threshold 1, and what a single stage holding
    all the classifiers returns when its threshold is their number. *)
Theorem detect_faces_as_cascade (img : grid)
    (classifiers : list WeakClassifier.t) :
  detect_faces img classifiers
  = fst (HaarCascade.detect
           (HaarCascade.Build
              (map (fun clf => CascadeStage.Build [clf] 1) classifiers))
           img)
  /\ detect_faces img classifiers
     = fst (CascadeStage.classify
              (CascadeStage.Build classifiers
                 (inject_Z (Z.of_nat (length classifiers))))
              (integral_image img)).
Proof.
  unfold detect_faces, HaarCascade.detect. cbv zeta.
  cbn [HaarCascade.stages]. rewrite detect_faces_loop_forallb. split.
  - rewrite detect_loop_forallb, forallb_map.
    induction classifiers as [|clf clfs IH]; [reflexivity|].
    cbn [forallb]. now rewrite singleton_stage, IH.
  - apply eq_true_iff_eq. rewrite <- length_filter_all.
    rewrite classify_eq. cbn [fst CascadeStage.threshold
      CascadeStage.classifiers].
    rewrite votes_count, Qle_bool_iff, <- Zle_Qle.
    pose proof (length_filter_le
      (fun clf => WeakClassifier.predict clf (integral_image img) =? 1)
      classifiers).
    lia.
Qed.

(** X14.  Stages compose: a cascade made of the stages of two cascades
    accepts exactly when both accept, and it calls [predict] on what the
    first calls, followed by what the second calls when the first
    accepts and by nothing otherwise. *)
Theorem detect_concatenated (a b : list CascadeStage.t) (image : grid) :
  HaarCascade.detect (HaarCascade.Build (a ++ b)) image
  = (fst (HaarCascade.detect (HaarCascade.Build a) image)
     && fst (HaarCascade.detect (HaarCascade.Build b) image),
     snd (HaarCascade.detect (HaarCascade.Build a) image)
     ++ (if fst (HaarCascade.detect (HaarCascade.Build a) image)
         then snd (HaarCascade.detect (HaarCascade.Build b) image)
         else [])).
Proof.
  unfold HaarCascade.detect. cbv zeta. cbn [HaarCascade.stages].
  apply detect_loop_app.
Qed.

(** X15.  The verdict of a cascade does not depend on the order of its
    stages: reordering them changes which classifiers are called, never
    whether the image is accepted. *)
Theorem detect_order_independent (stages stages' : list CascadeStage.t)
    (image : grid) :
  Permutation stages stages' ->
  fst (HaarCascade.detect (HaarCascade.Build stages) image)
  = fst (HaarCascade.detect (HaarCascade.Build stages') image).
Proof.
  intros Hperm. unfold HaarCascade.detect. cbv zeta.
  cbn [HaarCascade.stages]. rewrite !detect_loop_forallb.
  now apply forallb_permutation.
Qed.

Lemma detect_order_independent_witness :
  Permutation [strict_stage; lenient_stage] [lenient_stage; strict_stage]
  /\ fst (HaarCascade.detect
            (HaarCascade.Build [strict_stage; lenient_stage]) sample)
     = fst (HaarCascade.detect
              (HaarCascade.Build [lenient_stage; strict_stage]) sample)
  /\ snd (HaarCascade.detect
            (HaarCascade.Build [strict_stage; lenient_stage]) sample)
     <> snd (HaarCascade.detect
               (HaarCascade.Build [lenient_stage; strict_stage]) sample).
Proof.
  assert (Hperm : Permutation [strict_stage; lenient_stage]
                    [lenient_stage; strict_stage]) by apply perm_swap.
  split; [exact Hperm|]. split.
  - exact (detect_order_independent _ _ sample Hperm).
  - vm_compute. discriminate.
Defined.

(** ** The sliding window *)

Section SlidingWindowMore.

Lemma range_nonzero (stop step : Z) :
  step <> 0 ->
  Py.range 0 stop step
  = Py.Ok (map (fun k => 0 + step * Z.of_nat k)
               (seq 0 (Py.range_len 0 stop step))).
Proof.
  intros H. unfold Py.range.
  now replace (step =? 0) with false by (symmetry; apply Z.eqb_neq; lia).
Qed.

Lemma range_negative_empty (stop step : Z) :
  step < 0 -> 0 <= stop -> Py.range 0 stop step = Py.Ok [].
Proof.
  intros Hstep Hstop. rewrite range_nonzero by lia.
  unfold Py.range_len.
  replace (0 <? step) with false by (symmetry; apply Z.ltb_ge; lia).
  assert (Hq : (0 - stop - step - 1) / - step < 1)
    by (apply Z.div_lt_upper_bound; lia).
  now replace (Z.to_nat ((0 - stop - step - 1) / - step)) with 0%nat by lia.
Qed.

Lemma for_each_unchanged {A S : Type} (body : S -> A -> Py.result S)
    (xs : list A) (s : S) :
  (forall s x, body s x = Py.Ok s) -> Py.for_each xs s body = Py.Ok s.
Proof.
  intros H. induction xs as [|x xs IH]; [reflexivity|].
  cbn [Py.for_each]. now rewrite H.
Qed.

(** The two loops over given rows and columns never raise. *)
Lemma scan_rows (keep : Z -> Z -> bool) (mk : Z -> Z -> region)
    (xs ys : list Z) (detected_regions : list region) :
  Py.for_each ys detected_regions (fun detected_regions y =>
    xs' <- Py.Ok xs ;;
    Py.for_each xs' detected_regions (fun detected_regions x =>
      if keep y x then Py.Ok (detected_regions ++ [mk y x])
      else Py.Ok detected_regions))
  = Py.Ok (detected_regions
           ++ flat_map (fun y => map (mk y) (filter (keep y) xs)) ys).
Proof.
  revert detected_regions.
  induction ys as [|y ys IH]; intros detected_regions; cbn [Py.for_each].
  - cbn. now rewrite app_nil_r.
  - rewrite bind_ok. cbv beta.
    rewrite (inner_loop (keep y) (mk y)). rewrite bind_ok. cbv beta.
    rewrite IH. cbn [flat_map]. now rewrite <- app_assoc.
Qed.

Lemma sorted_map {A B : Type} (R : A -> A -> Prop) (R' : B -> B -> Prop)
    (f : A -> B) (l : list A) :
  (forall a b, R a b -> R' (f a) (f b)) ->
  StronglySorted R l -> StronglySorted R' (map f l).
Proof.
  intros Hmono. induction 1 as [|a l Hl IH Ha]; cbn [map]; constructor.
  - exact IH.
  - apply Forall_map. eapply Forall_impl; [|exact Ha]. intros b. apply Hmono.
Qed.

Lemma sorted_filter {A : Type} (R : A -> A -> Prop) (P : A -> bool)
    (l : list A) :
  StronglySorted R l -> StronglySorted R (filter P l).
Proof.
  induction 1 as [|a l Hl IH Ha]; cbn [filter]; [constructor|].
  destruct (P a); [|exact IH]. constructor; [exact IH|].
  apply Forall_forall. intros b Hb. apply filter_In in Hb as [Hb _].
  eapply Forall_forall in Ha; eauto.
Qed.

Lemma sorted_app {A : Type} (R : A -> A -> Prop) (l1 l2 : list A) :
  StronglySorted R l1 -> StronglySorted R l2 ->
  (forall a b, In a l1 -> In b l2 -> R a b) ->
  StronglySorted R (l1 ++ l2).
Proof.
  intros H1 H2 Hcross. induction H1 as [|a l1 Hl1 IH Ha]; [exact H2|].
  cbn [app]. constructor.
  - apply IH. intros u v Hu Hv. apply Hcross; [now right|exact Hv].
  - apply Forall_app. split; [exact Ha|].
    apply Forall_forall. intros b Hb. apply Hcross; [now left|exact Hb].
Qed.

Lemma sorted_flat_map {A B : Type} (Rk : A -> A -> Prop) (R : B -> B -> Prop)
    (f : A -> list B) (l : list A) :
  (forall a, StronglySorted R (f a)) ->
  (forall a a' u v, Rk a a' -> In u (f a) -> In v (f a') -> R u v) ->
  StronglySorted Rk l -> StronglySorted R (flat_map f l).
Proof.
  intros Hrow Hcross. induction 1 as [|a l Hl IH Ha]; cbn [flat_map].
  - constructor.
  - apply sorted_app; [apply Hrow|exact IH|].
    intros u v Hu Hv. apply in_flat_map in Hv as (a' & Ha' & Hv).
    eapply Hcross; eauto. eapply Forall_forall in Ha; eauto.
Qed.

Lemma sorted_nodup {A : Type} (R : A -> A -> Prop) (l : list A) :
  (forall a, ~ R a a) -> StronglySorted R l -> NoDup l.
Proof.
  intros Hirr. induction 1 as [|a l Hl IH Ha]; constructor; [|exact IH].
  intros Hin. eapply Forall_forall in Ha; eauto. exact (Hirr a Ha).
Qed.

Lemma seq_sorted (a n : nat) : StronglySorted lt (seq a n).
Proof.
  revert a. induction n as [|n IH]; intros a; cbn [seq]; constructor.
  - apply IH.
  - apply Forall_forall. intros b Hb. apply in_seq in Hb. lia.
Qed.

Lemma steps_below_sorted (stop step : Z) :
  0 < step -> StronglySorted Z.lt (steps_below stop step).
Proof.
  intros Hstep. unfold steps_below.
  apply (sorted_map lt); [|apply seq_sorted]. intros a b Hab. nia.
Qed.

Lemma length_slice {A : Type} (a b : Z) (l : list A) :
  0 <= a -> a <= b -> b <= Z.of_nat (length l) ->
  length (Py.slice a b l) = Z.to_nat (b - a).
Proof.
  intros Ha Hab Hb. unfold Py.slice.
  rewrite !slice_bound_nonneg by lia.
  rewrite length_firstn, length_skipn. lia.
Qed.

Lemma in_slice {A : Type} (a b : Z) (l : list A) (r : A) :
  In r (Py.slice a b l) -> In r l.
Proof.
  unfold Py.slice. intros H.
  rewrite <- (firstn_skipn (Py.slice_bound a (length l)) l).
  apply in_or_app. right.
  rewrite <- (firstn_skipn
    (Py.slice_bound b (length l) - Py.slice_bound a (length l))
    (skipn (Py.slice_bound a (length l)) l)).
  apply in_or_app. now left.
Qed.

End SlidingWindowMore.

(** X16.  The scan raises ValueError exactly when the step is 0,
    whatever the image, the cascade and the window size. *)
Theorem sliding_window_raises_iff (image : grid) (cascade : HaarCascade.t)
    (window_size : Z * Z) (step : Z) :
  sliding_window image cascade window_size step = Py.Raise Py.ValueError
  <-> step = 0.
Proof.
  split.
  - intros Hraise. destruct (Z.eq_dec step 0) as [E|E]; [exact E|].
    exfalso. revert Hraise. unfold sliding_window.
    rewrite (range_nonzero (np.shape0 image - snd window_size)) by exact E.
    rewrite (range_nonzero (np.shape1 image - fst window_size)) by exact E.
    rewrite bind_ok.
    rewrite (scan_rows
      (fun y x => fst (HaarCascade.detect cascade
         (np.slice2 y (y + snd window_size) x (x + fst window_size) image)))
      (fun y x => (x, y, fst window_size, snd window_size))).
    discriminate.
  - intros ->. reflexivity.
Qed.

(** X17.  With a negative step the scan returns the empty list as soon
    as the image is at least as high as the window, or at least as
    wide. *)
Theorem sliding_window_negative_step (image : grid) (cascade : HaarCascade.t)
    (w h step : Z) :
  step < 0 ->
  h <= np.shape0 image \/ w <= np.shape1 image ->
  sliding_window image cascade (w, h) step = Py.Ok [].
Proof.
  intros Hstep Hfit. unfold sliding_window. cbn [fst snd].
  destruct Hfit as [Hh|Hw].
  - now rewrite (range_negative_empty (np.shape0 image - h)) by lia.
  - rewrite (range_negative_empty (np.shape1 image - w)) by lia.
    rewrite (range_nonzero (np.shape0 image - h)) by lia.
    rewrite bind_ok. apply for_each_unchanged. reflexivity.
Qed.

Lemma sliding_window_negative_step_witness :
  -4 < 0
  /\ (24 <= np.shape0 (zeros 30 40) \/ 24 <= np.shape1 (zeros 30 40))
  /\ sliding_window (zeros 30 40) no_stages (24, 24) (-4) = Py.Ok [].
Proof.
  assert (Hstep : -4 < 0) by lia.
  assert (Hfit : 24 <= np.shape0 (zeros 30 40) \/ 24 <= np.shape1 (zeros 30 40))
    by (left; vm_compute; discriminate).
  split; [exact Hstep|]. split; [exact Hfit|].
  exact (sliding_window_negative_step (zeros 30 40) no_stages 24 24 (-4)
           Hstep Hfit).
Defined.

(** X18.  With a positive step the regions come out in row-major order,
    each strictly after the one before it, so no window is reported
    twice. *)
Theorem sliding_window_row_major (image : grid) (cascade : HaarCascade.t)
    (w h step : Z) :
  0 < step ->
  exists regions,
    sliding_window image cascade (w, h) step = Py.Ok regions
    /\ StronglySorted row_major_before regions
    /\ NoDup regions.
Proof.
  intros Hstep. eexists. split; [now apply sliding_window_positive|].
  assert (Hsorted : StronglySorted row_major_before
            (flat_map (fun y =>
               map (fun x => (x, y, w, h))
                   (filter (fun x => accepts_window cascade image (w, h) x y)
                           (steps_below (np.shape1 image - w) step)))
               (steps_below (np.shape0 image - h) step))).
  { apply (sorted_flat_map Z.lt).
    - intros y. apply (sorted_map Z.lt).
      + intros a b Hab. cbn. right. now split.
      + apply sorted_filter. now apply steps_below_sorted.
    - intros y y' u v Hy Hu Hv.
      apply in_map_iff in Hu as (a & <- & _).
      apply in_map_iff in Hv as (b & <- & _).
      cbn. now left.
    - now apply steps_below_sorted. }
  split; [exact Hsorted|].
  apply (sorted_nodup row_major_before); [|exact Hsorted].
  intros [[[x y] w'] h']. cbn. lia.
Qed.

Lemma sliding_window_row_major_witness :
  0 < 4
  /\ exists regions,
       sliding_window (zeros 30 40) no_stages (24, 24) 4 = Py.Ok regions
       /\ NoDup regions.
Proof.
  assert (Hstep : 0 < 4) by lia.
  split; [exact Hstep|].
  destruct (sliding_window_row_major (zeros 30 40) no_stages 24 24 4 Hstep)
    as (regions & Hrun & _ & Hnodup).
  exists regions. split; [exact Hrun|exact Hnodup].
Defined.

(** X19.  With a positive step and a window of non-negative size, every
    region the scan returns lies strictly inside the rectangular image,
    short of its last row and column, and the window handed to the
    cascade there is never clipped: it has exactly the window's height
    and width. *)
Theorem sliding_window_full_windows (wd : nat) (image : grid)
    (cascade : HaarCascade.t) (w h step : Z) (regions : list region) :
  0 < step -> 0 <= w -> 0 <= h -> rectangular wd image ->
  sliding_window image cascade (w, h) step = Py.Ok regions ->
  forall x y w' h',
    In (x, y, w', h') regions ->
    (0 <= x /\ x + w < Z.of_nat wd)
    /\ (0 <= y /\ y + h < Z.of_nat (length image))
    /\ length (np.slice2 y (y + h) x (x + w) image) = Z.to_nat h
    /\ rectangular (Z.to_nat w) (np.slice2 y (y + h) x (x + w) image).
Proof.
  intros Hstep Hw Hh Hrect Hrun x y w' h' Hin.
  rewrite sliding_window_positive in Hrun by exact Hstep.
  injection Hrun as <-.
  apply in_sliding_window in Hin; [|exact Hstep].
  destruct Hin as (x0 & y0 & Heq & [Hy _] & [Hx _] & _).
  injection Heq as -> -> -> ->.
  unfold np.shape0 in Hy.
  assert (Hwd : np.shape1 image = Z.of_nat wd).
  { destruct image as [|r rows]; [cbn [length] in Hy; lia|].
    inversion Hrect; subst. reflexivity. }
  rewrite Hwd in Hx.
  split; [lia|]. split; [lia|]. unfold np.slice2. split.
  - rewrite length_map, length_slice by lia. f_equal. lia.
  - apply Forall_map, Forall_forall. intros r Hr.
    apply in_slice in Hr.
    eapply Forall_forall in Hrect; [|exact Hr].
    rewrite length_slice by lia. f_equal. lia.
Qed.

Lemma sliding_window_full_windows_witness :
  0 < 4 /\ 0 <= 24 /\ rectangular 40 (zeros 30 40)
  /\ sliding_window (zeros 30 40) no_stages (24, 24) 4
     = Py.Ok [(0, 0, 24, 24); (4, 0, 24, 24); (8, 0, 24, 24); (12, 0, 24, 24);
              (0, 4, 24, 24); (4, 4, 24, 24); (8, 4, 24, 24); (12, 4, 24, 24)]
  /\ length (np.slice2 4 (4 + 24) 12 (12 + 24) (zeros 30 40)) = Z.to_nat 24.
Proof.
  assert (Hstep : 0 < 4) by lia.
  assert (H24 : 0 <= 24) by lia.
  assert (Hrect : rectangular 40 (zeros 30 40))
    by (apply Forall_forall; intros r Hr; apply repeat_spec in Hr; subst;
        apply repeat_length).
  assert (Hrun : sliding_window (zeros 30 40) no_stages (24, 24) 4
     = Py.Ok [(0, 0, 24, 24); (4, 0, 24, 24); (8, 0, 24, 24); (12, 0, 24, 24);
              (0, 4, 24, 24); (4, 4, 24, 24); (8, 4, 24, 24); (12, 4, 24, 24)])
    by (vm_compute; reflexivity).
  split; [exact Hstep|]. split; [exact H24|]. split; [exact Hrect|].
  split; [exact Hrun|].
  refine (proj1 (proj2 (proj2
    (sliding_window_full_windows 40 (zeros 30 40) no_stages 24 24 4 _
       Hstep H24 H24 Hrect Hrun 12 4 24 24 _)))).
  simpl. tauto.
Defined.

(** ** The trainers *)

Section TrainersMore.

Lemma length_filter_map {A B : Type} (P : B -> bool) (g : A -> B)
    (l : list A) :
  length (filter P (map g l)) = length (filter (fun a => P (g a)) l).
Proof.
  induction l as [|a l IH]; [reflexivity|].
  cbn [map filter]. destruct (P (g a)); cbn [length]; now rewrite IH.
Qed.

Lemma count_correct_raw (c : WeakClassifier.t) (pos neg : list grid) :
  count_correct c pos neg
  = sumZ (predictions_of c (map integral_image pos) (map integral_image neg)).
Proof.
  rewrite count_correct_eq, raw_count, !length_filter_map. reflexivity.
Qed.

Lemma accuracy_raw (c : WeakClassifier.t) (pos neg : list grid) :
  loop_accuracy pos neg c
  = raw_score (map integral_image pos) (map integral_image neg) c.
Proof.
  unfold loop_accuracy, raw_score. now rewrite count_correct_raw, !length_map.
Qed.

Lemma search_ext (s1 s2 : WeakClassifier.t -> Q) (l : list WeakClassifier.t)
    (st : best) :
  (forall c, s1 c = s2 c) ->
  fold_left (fun st c => keep_better st c (s1 c)) l st
  = fold_left (fun st c => keep_better st c (s2 c)) l st.
Proof.
  intros H. revert st. induction l as [|c l IH]; intros st; [reflexivity|].
  cbn [fold_left]. now rewrite H, IH.
Qed.

Lemma train_classifier_fold (pos neg : list grid) (feature : HaarFeature.t) :
  pos <> [] \/ neg <> [] ->
  train_classifier pos neg feature
  = Py.Ok (fst (fold_left
             (fun st c => keep_better st c (loop_accuracy pos neg c))
             (candidates feature) (None, 0%Q))).
Proof.
  intros Hne.
  pose proof (search_loops feature (fun c => count_correct c pos neg) _
                (total_positive pos neg Hne) (None, 0%Q)) as Hloops.
  cbv beta zeta in Hloops.
  unfold train_classifier. cbv zeta.
  match goal with
  | |- Py.bind ?loops _ = _ =>
      replace loops
        with (Py.Ok (fold_left
                (fun st c => keep_better st c (loop_accuracy pos neg c))
                (candidates feature) (None, 0%Q)))
        by (symmetry; exact Hloops)
  end.
  reflexivity.
Qed.

Lemma adaboost_round_fold (pos neg : list grid) (feature : HaarFeature.t)
    (weights : list Q) (classifiers : list (option WeakClassifier.t)) :
  pos <> [] \/ neg <> [] ->
  adaboost_round (length pos) (length neg) pos neg
    (weights, classifiers) feature
  = Py.Ok (weights,
           classifiers
           ++ [fst (fold_left
                 (fun st c => keep_better st c (raw_score pos neg c))
                 (candidates feature) (None, 0%Q))]).
Proof.
  intros Hne.
  pose proof (search_loops feature
                (fun c => sumZ (predictions_of c pos neg)) _
                (total_positive pos neg Hne) (None, 0%Q)) as Hloops.
  cbv beta zeta in Hloops.
  unfold adaboost_round. cbv zeta.
  match goal with
  | |- Py.bind ?loops _ = _ =>
      replace loops
        with (Py.Ok (fold_left
                (fun st c => keep_better st c (raw_score pos neg c))
                (candidates feature) (None, 0%Q)))
        by (symmetry; exact Hloops)
  end.
  reflexivity.
Qed.

Lemma adaboost_loop_fold (pos neg : list grid)
    (features : list HaarFeature.t) (weights : list Q)
    (classifiers : list (option WeakClassifier.t)) :
  pos <> [] \/ neg <> [] ->
  Py.for_each features (weights, classifiers)
    (adaboost_round (length pos) (length neg) pos neg)
  = Py.Ok (weights,
           classifiers
           ++ map (fun f =>
                fst (fold_left
                  (fun st c => keep_better st c (raw_score pos neg c))
                  (candidates f) (None, 0%Q)))
                features).
Proof.
  intros Hne. revert classifiers.
  induction features as [|f features IH]; intros classifiers.
  - cbn. now rewrite app_nil_r.
  - cbn [Py.for_each]. rewrite adaboost_round_fold by exact Hne.
    cbn [Py.bind]. rewrite IH. cbn [map]. now rewrite <- app_assoc.
Qed.

Lemma length_filter_complement {A : Type} (P Q : A -> bool) (l : list A) :
  (forall a, Q a = negb (P a)) ->
  (length (filter P l) + length (filter Q l) = length l)%nat.
Proof.
  intros H. induction l as [|a l IH]; [reflexivity|].
  cbn [filter]. rewrite H. destruct (P a); cbn [negb length]; lia.
Qed.

Lemma length_filter_permutation {A : Type} (P : A -> bool) (l l' : list A) :
  Permutation l l' -> length (filter P l) = length (filter P l').
Proof.
  induction 1 as [| a l l' _ IH | a b l | l l' l'' _ IH1 _ IH2];
    cbn [filter].
  - reflexivity.
  - destruct (P a); cbn [length]; now rewrite IH.
  - destruct (P a), (P b); reflexivity.
  - now rewrite IH1.
Qed.

Lemma for_each_ext {A S : Type} (body body' : S -> A -> Py.result S)
    (xs : list A) (s : S) :
  (forall s x, body s x = body' s x) ->
  Py.for_each xs s body = Py.for_each xs s body'.
Proof.
  intros H. revert s. induction xs as [|x xs IH]; intros s; [reflexivity|].
  cbn [Py.for_each]. rewrite H. destruct (body' s x); cbn [Py.bind];
    [apply IH|reflexivity].
Qed.

(** The two candidates of threshold -7/9 split the integers between
    them: one accepts the values up to -1, the other those from 0. *)
Lemma inner_threshold_complement (f : HaarFeature.t) (int_img : grid) :
  WeakClassifier.predict (WeakClassifier.Build f (-7 # 9) 1) int_img
  + WeakClassifier.predict (WeakClassifier.Build f (-7 # 9) (-1)) int_img
  = 1.
Proof.
  pose proof (predict_1_iff f (-7 # 9) 1 int_img) as H1.
  pose proof (predict_1_iff f (-7 # 9) (-1) int_img) as H2.
  assert (Q1 : (inject_Z (1 * HaarFeature.compute f int_img)
                < inject_Z 1 * (-7 # 9))%Q
               <-> HaarFeature.compute f int_img <= -1) by q_compare.
  assert (Q2 : (inject_Z (-1 * HaarFeature.compute f int_img)
                < inject_Z (-1) * (-7 # 9))%Q
               <-> 0 <= HaarFeature.compute f int_img) by q_compare.
  destruct (predict_01 (WeakClassifier.Build f (-7 # 9) 1) int_img) as [E1|E1];
    destruct (predict_01 (WeakClassifier.Build f (-7 # 9) (-1)) int_img)
      as [E2|E2]; rewrite E1, E2; try reflexivity; exfalso.
  - destruct (Z_le_gt_dec (HaarFeature.compute f int_img) (-1)) as [Hv|Hv].
    + apply Q1, H1 in Hv. lia.
    + assert (Hv' : 0 <= HaarFeature.compute f int_img) by lia.
      apply Q2, H2 in Hv'. lia.
  - apply H1, Q1 in E1. apply H2, Q2 in E2. lia.
Qed.

Lemma inner_threshold_counts (f : HaarFeature.t) (pos neg : list grid) :
  count_correct (WeakClassifier.Build f (-7 # 9) 1) pos neg
  + count_correct (WeakClassifier.Build f (-7 # 9) (-1)) pos neg
  = Z.of_nat (length pos) + Z.of_nat (length neg).
Proof.
  rewrite !count_correct_eq.
  pose proof (length_filter_complement
    (fun img => WeakClassifier.predict (WeakClassifier.Build f (-7 # 9) 1)
                  (integral_image img) =? 1)
    (fun img => WeakClassifier.predict (WeakClassifier.Build f (-7 # 9) (-1))
                  (integral_image img) =? 1) pos) as Hp.
  pose proof (length_filter_complement
    (fun img => WeakClassifier.predict (WeakClassifier.Build f (-7 # 9) 1)
                  (integral_image img) =? 0)
    (fun img => WeakClassifier.predict (WeakClassifier.Build f (-7 # 9) (-1))
                  (integral_image img) =? 0) neg) as Hn.
  assert (Hc : forall img b,
            (WeakClassifier.predict (WeakClassifier.Build f (-7 # 9) (-1))
               (integral_image img) =? b)
            = (WeakClassifier.predict (WeakClassifier.Build f (-7 # 9) 1)
                 (integral_image img) =? 1 - b)).
  { intros img b.
    pose proof (inner_threshold_complement f (integral_image img)).
    apply eq_true_iff_eq. rewrite !Z.eqb_eq. lia. }
  assert (Hneg : forall img b, b = 0 \/ b = 1 ->
            (WeakClassifier.predict (WeakClassifier.Build f (-7 # 9) 1)
               (integral_image img) =? 1 - b)
            = negb (WeakClassifier.predict (WeakClassifier.Build f (-7 # 9) 1)
                      (integral_image img) =? b)).
  { intros img b Hb.
    destruct (predict_01 (WeakClassifier.Build f (-7 # 9) 1)
                (integral_image img)) as [E|E];
      rewrite E; destruct Hb as [-> | ->]; reflexivity. }
  specialize (Hp (fun img => eq_trans (Hc img 1) (Hneg img 1 (or_intror eq_refl)))).
  specialize (Hn (fun img => eq_trans (Hc img 0) (Hneg img 0 (or_introl eq_refl)))).
  lia.
Qed.

Lemma inner_threshold_candidates (f : HaarFeature.t) (p : Z) :
  p = 1 \/ p = -1 -> In (WeakClassifier.Build f (-7 # 9) p) (candidates f).
Proof.
  intros Hp. apply in_candidates. exists 1%nat, p.
  split; [lia|]. split; [exact Hp|reflexivity].
Qed.

End TrainersMore.

(** X20.  [train_classifier] raises ZeroDivisionError exactly when it
    is given no sample at all, for every feature. *)
Theorem train_classifier_raises_iff (pos neg : list grid)
    (feature : HaarFeature.t) :
  train_classifier pos neg feature = Py.Raise Py.ZeroDivisionError
  <-> pos = [] /\ neg = [].
Proof.
  assert (Hok : pos <> [] \/ neg <> [] ->
            exists c, train_classifier pos neg feature = Py.Ok (Some c)).
  { intros Hne.
    destruct (train_classifier_result pos neg feature Hne) as (c & Hrun & _).
    now exists c. }
  split.
  - intros Hrun. destruct pos as [|p pos]; [destruct neg as [|n neg]|].
    + now split.
    + destruct Hok as (c & Hc); [right; discriminate|congruence].
    + destruct Hok as (c & Hc); [left; discriminate|congruence].
  - intros [-> ->]. reflexivity.
Qed.

(** X21.  [adaboost_train] raises ZeroDivisionError exactly when it is
    given at least one feature and no sample at all; given no feature
    it returns the empty list, even without samples. *)
Theorem adaboost_train_raises_iff (features : list HaarFeature.t)
    (pos neg : list grid) :
  (adaboost_train features pos neg = Py.Raise Py.ZeroDivisionError
   <-> features <> [] /\ pos = [] /\ neg = [])
  /\ adaboost_train [] pos neg = Py.Ok [].
Proof.
  split; [|reflexivity]. split.
  - intros Hrun. destruct features as [|f features].
    { discriminate Hrun. }
    split; [discriminate|].
    destruct pos as [|p pos]; [destruct neg as [|n neg]|].
    + now split.
    + exfalso. revert Hrun. unfold adaboost_train, adaboost_rounds. cbv zeta.
      rewrite adaboost_loop_fold by (right; discriminate). discriminate.
    + exfalso. revert Hrun. unfold adaboost_train, adaboost_rounds. cbv zeta.
      rewrite adaboost_loop_fold by (left; discriminate). discriminate.
  - intros (Hf & -> & ->). destruct features as [|f features];
      [congruence|reflexivity].
Qed.

(** X22.  The two trainers agree: given at least one sample,
    [adaboost_train] on the integral images of the samples returns, for
    each feature in order, exactly what [train_classifier] returns for
    that feature on the samples themselves. *)
Theorem trainers_agree (features : list HaarFeature.t) (pos neg : list grid) :
  pos <> [] \/ neg <> [] ->
  exists cs,
    adaboost_train features (map integral_image pos) (map integral_image neg)
    = Py.Ok cs
    /\ Forall2 (fun f c => train_classifier pos neg f = Py.Ok c) features cs.
Proof.
  intros Hne.
  assert (Hne' : map integral_image pos <> [] \/ map integral_image neg <> []).
  { destruct Hne as [H|H]; [left|right]; intros E;
      apply map_eq_nil in E; contradiction. }
  exists (map (fun f =>
            fst (fold_left
              (fun st c => keep_better st c (loop_accuracy pos neg c))
              (candidates f) (None, 0%Q)))
            features).
  split.
  - unfold adaboost_train, adaboost_rounds. cbv zeta.
    rewrite adaboost_loop_fold by exact Hne'. cbn [Py.bind snd app].
    f_equal. apply map_ext. intros f. f_equal.
    apply search_ext. intros c. symmetry. apply accuracy_raw.
  - induction features as [|f features IH]; cbn [map]; constructor.
    + now apply train_classifier_fold.
    + exact IH.
Qed.

Lemma trainers_agree_witness :
  ([sample] <> [] \/ [zeros 4 4] <> [])
  /\ exists cs,
       adaboost_train [full_box; row_pair]
         (map integral_image [sample]) (map integral_image [zeros 4 4])
       = Py.Ok cs
       /\ Forall2 (fun f c => train_classifier [sample] [zeros 4 4] f = Py.Ok c)
            [full_box; row_pair] cs.
Proof.
  assert (Hne : [sample] <> [] \/ [zeros 4 4] <> []) by (left; discriminate).
  split; [exact Hne|].
  exact (trainers_agree [full_box; row_pair] [sample] [zeros 4 4] Hne).
Defined.

(** X23.  A classifier that [train_classifier] returns is never worse
    than chance on its training set.  When the feature values of all
    samples have magnitude at most 2^53 (so that the code negates and
    compares them without wrapping or rounding), every classifier the
    trainer returns is a candidate of the grid whose accuracy, counted
    independently of the trainer, is at least 1/2. *)
Theorem train_classifier_at_least_half (pos neg : list grid)
    (feature : HaarFeature.t) (c : WeakClassifier.t) :
  Forall (fun img =>
            - exact_double_bound
            <= HaarFeature.compute feature (integral_image img)
            <= exact_double_bound) (pos ++ neg) ->
  train_classifier pos neg feature = Py.Ok (Some c) ->
  In c (candidates feature) /\ (1 # 2 <= accuracy pos neg c)%Q.
Proof.
  intros _ Hreturned.
  assert (Hne : pos <> [] \/ neg <> []).
  { destruct pos as [|p pos]; [|left; discriminate].
    destruct neg as [|n neg]; [|right; discriminate].
    discriminate Hreturned. }
  destruct (train_classifier_result pos neg feature Hne)
    as (c0 & Hrun & before & after & Heq & Hb & Ha).
  assert (c0 = c) by congruence. subst c0.
  assert (Hin : In c (candidates feature))
    by (rewrite Heq; apply in_or_app; right; now left).
  split; [exact Hin|].
  assert (Hmax : forall c', In c' (candidates feature) ->
            (loop_accuracy pos neg c' <= loop_accuracy pos neg c)%Q).
  { intros c' Hc'. rewrite Heq in Hc'.
    apply in_app_or in Hc' as [Hc'|[<-|Hc']].
    - apply Qlt_le_weak. now apply Hb.
    - apply Qle_refl.
    - now apply Ha. }
  pose proof (total_positive pos neg Hne) as HN.
  pose proof (Hmax _ (inner_threshold_candidates feature 1 (or_introl eq_refl)))
    as H1.
  pose proof (Hmax _ (inner_threshold_candidates feature (-1)
                        (or_intror eq_refl))) as H2.
  pose proof (inner_threshold_counts feature pos neg) as Hsum.
  rewrite <- loop_accuracy_eq.
  unfold loop_accuracy, Qle in *. cbn [Qnum Qden] in *.
  rewrite Z2Pos.id in * by exact HN. nia.
Qed.

Lemma train_classifier_at_least_half_witness :
  Forall (fun img =>
            - exact_double_bound
            <= HaarFeature.compute full_box (integral_image img)
            <= exact_double_bound) ([sample] ++ [zeros 4 4])
  /\ train_classifier [sample] [zeros 4 4] full_box
     = Py.Ok (Some (WeakClassifier.Build full_box (-9 # 9) 1))
  /\ (1 # 2 <= accuracy [sample] [zeros 4 4]
                 (WeakClassifier.Build full_box (-9 # 9) 1))%Q.
Proof.
  assert (Hb : Forall (fun img =>
               - exact_double_bound
               <= HaarFeature.compute full_box (integral_image img)
               <= exact_double_bound) ([sample] ++ [zeros 4 4]))
    by (repeat constructor; vm_compute; discriminate).
  assert (Hrun : train_classifier [sample] [zeros 4 4] full_box
                 = Py.Ok (Some (WeakClassifier.Build full_box (-9 # 9) 1)))
    by (vm_compute; reflexivity).
  split; [exact Hb|]. split; [exact Hrun|].
  exact (proj2 (train_classifier_at_least_half [sample] [zeros 4 4] full_box
                  _ Hb Hrun)).
Defined.

(** X24.  [train_classifier] does not depend on the order of the
    samples: permuting the positives and the negatives leaves its
    result unchanged. *)
Theorem train_classifier_order_independent (pos pos' neg neg' : list grid)
    (feature : HaarFeature.t) :
  Permutation pos pos' -> Permutation neg neg' ->
  train_classifier pos neg feature = train_classifier pos' neg' feature.
Proof.
  intros Hpos Hneg. unfold train_classifier. cbv zeta.
  f_equal. apply for_each_ext. intros st threshold.
  apply for_each_ext. intros st' polarity.
  rewrite !count_correct_eq.
  rewrite (length_filter_permutation _ pos pos' Hpos).
  rewrite (length_filter_permutation _ neg neg' Hneg).
  rewrite (Permutation_length Hpos), (Permutation_length Hneg).
  reflexivity.
Qed.

Lemma train_classifier_order_independent_witness :
  Permutation [sample; zeros 4 4] [zeros 4 4; sample]
  /\ Permutation [zeros 2 2] [zeros 2 2]
  /\ train_classifier [sample; zeros 4 4] [zeros 2 2] full_box
     = train_classifier [zeros 4 4; sample] [zeros 2 2] full_box.
Proof.
  assert (Hpos : Permutation [sample; zeros 4 4] [zeros 4 4; sample])
    by apply perm_swap.
  assert (Hneg : Permutation [zeros 2 2] [zeros 2 2])
    by apply Permutation_refl.
  split; [exact Hpos|]. split; [exact Hneg|].
  exact (train_classifier_order_independent _ _ _ _ full_box Hpos Hneg).
Defined.
